(** * Croo: the output organizer of [croo/croo.py]

    A shallow embedding of [Croo.__interpret_inline_exp] (the inline
    expression interpreter) and of [Croo.organize_output] (the matching
    loops), with the properties stated about them.

    Python strings are [string]; a scatter index tuple is a [list Z]; the
    output definition JSON (a [dict], iterated with [.items()] in insertion
    order) is an association list; exceptions are an explicit outcome; the
    calls to the collaborators ([CaperURI], [CrooHtmlReport]) are recorded in
    a trace. *)

From Stdlib Require Import String Ascii List ZArith Lia Bool Arith.
From Stdlib Require Import DecimalString.
Import ListNotations.
Local Open Scope string_scope.

Set Implicit Arguments.

(* ================================================================== *)
(** ** Outcomes of Python code *)

(** The exceptions that the modelled code can raise.  [IndexError] is the
    one raised by a tuple subscript out of range, in the source
    ([shard_idx[0]]) or in an expression that [eval] evaluates;
    [NameError] is raised by [eval] on an unbound name; [EvalError] stands for
    an exception of another class raised while [eval] evaluates an expression
    that is not a plain name. *)
Inductive exn : Type :=
| IndexError
| NameError (name : string)
| EvalError (kind : string).

(** A call returns, raises, or is still running when the fuel is spent. *)
Inductive outcome (A : Type) : Type :=
| Ok (a : A)
| Raise (e : exn)
| OutOfFuel.

Arguments Ok {A} a.
Arguments Raise {A} e.
Arguments OutOfFuel {A}.

(* ================================================================== *)
(** ** Strings *)

Module Str.

Definition dollar : ascii := "$"%char.
Definition lbrace : ascii := "{"%char.
Definition rbrace : ascii := "}"%char.
Definition newline : ascii := "010"%char.
Definition slash : ascii := "/"%char.

(** [s.startswith(p)] *)
Definition startswith (s p : string) : bool := String.prefix p s.

(** [s[n:]] *)
Fixpoint drop (n : nat) (s : string) : string :=
  match n, s with
  | O, _ => s
  | S n', String _ r => drop n' r
  | S _, EmptyString => EmptyString
  end.

(** [s.replace(old, new, 1)] for a non-empty [old]: the first occurrence
    of [old], scanning from the left, is replaced; [s] is returned as it is
    when [old] does not occur. *)
Fixpoint replace1 (s old new : string) : string :=
  if startswith s old then new ++ drop (String.length old) s
  else match s with
       | EmptyString => EmptyString
       | String c r => String c (replace1 r old new)
       end.

(** Number of occurrences of a character. *)
Fixpoint count (c : ascii) (s : string) : nat :=
  match s with
  | EmptyString => 0
  | String d r => (if Ascii.eqb d c then 1 else 0) + count c r
  end.

(** [c in s] *)
Fixpoint mem (c : ascii) (s : string) : bool :=
  match s with
  | EmptyString => false
  | String d r => Ascii.eqb d c || mem c r
  end.

(** [s.endswith(c)] for a single character *)
Fixpoint endswith_char (s : string) (c : ascii) : bool :=
  match s with
  | EmptyString => false
  | String d EmptyString => Ascii.eqb d c
  | String _ r => endswith_char r c
  end.

(** [s == c * len(s)] *)
Fixpoint all_char (c : ascii) (s : string) : bool :=
  match s with
  | EmptyString => true
  | String d r => Ascii.eqb d c && all_char c r
  end.

(** [s.rstrip(c)] for a single character *)
Fixpoint rstrip (c : ascii) (s : string) : string :=
  match s with
  | EmptyString => EmptyString
  | String d r =>
      match rstrip c r with
      | EmptyString => if Ascii.eqb d c then EmptyString else String d EmptyString
      | r' => String d r'
      end
  end.

End Str.

(* ================================================================== *)
(** ** The regular expression [RE_PATTERN_INLINE_EXP = r'\$\{(.*?)\}'] *)

Module Re.

(** The match object: [m.start()], [m.group(0)] and [m.group(1)]. *)
Record match_object : Type := Match {
  start : nat;
  group0 : string;
  group1 : string
}.

(** [(.*?)\}] tried at the text that follows ["${"]: the shortest run of
    characters other than a newline that is followed by ["}"]. *)
Fixpoint lazy_body (s : string) : option string :=
  match s with
  | EmptyString => None
  | String c r =>
      if Ascii.eqb c Str.rbrace then Some EmptyString
      else if Ascii.eqb c Str.newline then None
      else option_map (String c) (lazy_body r)
  end.

(** The pattern tried at the beginning of [s]. *)
Definition match_here (s : string) : option string :=
  match s with
  | String c (String d r) =>
      if Ascii.eqb c Str.dollar && Ascii.eqb d Str.lbrace then lazy_body r
      else None
  | _ => None
  end.

Definition placeholder (e : string) : string :=
  String Str.dollar (String Str.lbrace (e ++ String Str.rbrace EmptyString)).

(** [re.search(RE_PATTERN_INLINE_EXP, s)], the leftmost match, with
    positions counted from [pos]. *)
Fixpoint search_from (pos : nat) (s : string) : option match_object :=
  match match_here s with
  | Some e => Some (Match pos (placeholder e) e)
  | None =>
      match s with
      | EmptyString => None
      | String _ r => search_from (S pos) r
      end
  end.

Definition search (s : string) : option match_object := search_from 0 s.

(** A string has a placeholder when it has an occurrence of ["${"], an
    expression without a newline, and ["}"]. *)
Definition has_placeholder (s : string) : Prop :=
  exists pre e suf,
    s = pre ++ placeholder e ++ suf /\ Str.mem Str.newline e = false.

End Re.

(* ================================================================== *)
(** ** [os.path] (posixpath) *)

Module Path.

(** [(p[:i], p[i:])] with [i = p.rfind('/') + 1]. *)
Fixpoint split_last (p : string) : string * string :=
  match p with
  | EmptyString => (EmptyString, EmptyString)
  | String c r =>
      let '(h, t) := split_last r in
      match h with
      | EmptyString =>
          if Ascii.eqb c Str.slash then (String c EmptyString, r)
          else (EmptyString, String c r)
      | _ => (String c h, t)
      end
  end.

(** [os.path.basename(p)] *)
Definition basename (p : string) : string := snd (split_last p).

(** [os.path.dirname(p)] *)
Definition dirname (p : string) : string :=
  let head := fst (split_last p) in
  if negb (String.eqb head EmptyString) && negb (Str.all_char Str.slash head)
  then Str.rstrip Str.slash head
  else head.

(** [os.path.join(a, b)] *)
Definition join (a b : string) : string :=
  if Str.startswith b "/" then b
  else if String.eqb a EmptyString || Str.endswith_char a Str.slash then a ++ b
  else a ++ "/" ++ b.

End Path.

(* ================================================================== *)
(** ** Python values and [str()] *)

Module Py.

(** The values an inline expression can evaluate to.  [VObject] is any
    other object (a module, a function, a class, a match object), known
    here only by the text [str()] gives for it. *)
Inductive value : Type :=
| VNone
| VInt (z : Z)
| VStr (s : string)
| VTuple (t : list Z)
| VObject (repr : string).

(** The result of evaluating an expression that is not a plain name: a
    value, or an exception, given by the name of its class. *)
Inductive eval_result : Type :=
| Value (v : value)
| Exception (kind : string).

(** What [eval] needs and the source does not define: the names bound
    outside the function (the module's globals, then the builtins), the
    text of a match object, and the evaluation of an expression that is
    not a plain name, given the lookup of names. *)
Record env : Type := Env {
  outer : string -> option value;
  match_repr : Re.match_object -> string;
  eval_other : string -> (string -> option value) -> eval_result
}.

(** [str(n)] for an [int] *)
Definition str_of_int (z : Z) : string := NilZero.string_of_int (Z.to_int z).

Fixpoint join_comma (t : list Z) : string :=
  match t with
  | [] => ""
  | [x] => str_of_int x
  | x :: r => str_of_int x ++ ", " ++ join_comma r
  end.

(** [str(t)] for a tuple of [int] *)
Definition str_of_tuple (t : list Z) : string :=
  match t with
  | [x] => "(" ++ str_of_int x ++ ",)"
  | _ => "(" ++ join_comma t ++ ")"
  end.

(** [str(v)] *)
Definition str (v : value) : string :=
  match v with
  | VNone => "None"
  | VInt z => str_of_int z
  | VStr s => s
  | VTuple t => str_of_tuple t
  | VObject repr => repr
  end.

Definition is_alpha (c : ascii) : bool :=
  let n := nat_of_ascii c in
  (((65 <=? n) && (n <=? 90)) || ((97 <=? n) && (n <=? 122)) || (n =? 95))%nat.

Definition is_alnum (c : ascii) : bool :=
  let n := nat_of_ascii c in
  is_alpha c || ((48 <=? n) && (n <=? 57))%nat.

Fixpoint all_alnum (s : string) : bool :=
  match s with
  | EmptyString => true
  | String c r => is_alnum c && all_alnum r
  end.

Definition keywords : list string :=
  [ "False"; "None"; "True"; "and"; "as"; "assert"; "async"; "await";
    "break"; "class"; "continue"; "def"; "del"; "elif"; "else"; "except";
    "finally"; "for"; "from"; "global"; "if"; "import"; "in"; "is";
    "lambda"; "nonlocal"; "not"; "or"; "pass"; "raise"; "return"; "try";
    "while"; "with"; "yield" ].

(** The expressions that are a plain name: an ASCII identifier that is
    not a keyword. *)
Definition is_identifier (e : string) : bool :=
  match e with
  | EmptyString => false
  | String c r =>
      is_alpha c && all_alnum r && negb (existsb (String.eqb e) keywords)
  end.

(** [t[n]] *)
Definition subscript (t : list Z) (n : nat) : outcome Z :=
  match nth_error t n with
  | Some z => Ok z
  | None => Raise IndexError
  end.

End Py.

(* ================================================================== *)
(** ** [Croo.__interpret_inline_exp] *)

Definition obind {A B : Type} (x : outcome A) (f : A -> outcome B) : outcome B :=
  match x with
  | Ok a => f a
  | Raise e => Raise e
  | OutOfFuel => OutOfFuel
  end.

Declare Scope outcome_scope.
Delimit Scope outcome_scope with outcome.
Notation "x <- c ;; k" := (obind c (fun x => k))
  (at level 61, c at next level, right associativity) : outcome_scope.

Module Interp.

(** The names the docstring lists as supported expressions. *)
Definition supported : list string :=
  [ "i"; "j"; "k"; "basename"; "dirname"; "full_path"; "shard_idx" ].

(** The local variables of the function when [eval] is called. *)
Record locals : Type := Locals {
  l_s : string;
  l_full_path : string;
  l_shard_idx : list Z;
  l_result : string;
  l_i : option Z;
  l_j : option Z;
  l_k : option Z;
  l_basename : string;
  l_dirname : string;
  l_m : Re.match_object
}.

(** The names that are local variables. *)
Definition local_names : list string :=
  [ "s"; "full_path"; "shard_idx"; "result"; "i"; "j"; "k"; "basename";
    "dirname"; "m" ].

Definition int_or_none (x : option Z) : Py.value :=
  match x with
  | Some z => Py.VInt z
  | None => Py.VNone
  end.

Section WithEnv.

Variable E : Py.env.

(** Name lookup of [eval]: the locals of the caller, then the globals
    and builtins. *)
Definition lookup (L : locals) (name : string) : option Py.value :=
  if String.eqb name "s" then Some (Py.VStr (l_s L))
  else if String.eqb name "full_path" then Some (Py.VStr (l_full_path L))
  else if String.eqb name "shard_idx" then Some (Py.VTuple (l_shard_idx L))
  else if String.eqb name "result" then Some (Py.VStr (l_result L))
  else if String.eqb name "i" then Some (int_or_none (l_i L))
  else if String.eqb name "j" then Some (int_or_none (l_j L))
  else if String.eqb name "k" then Some (int_or_none (l_k L))
  else if String.eqb name "basename" then Some (Py.VStr (l_basename L))
  else if String.eqb name "dirname" then Some (Py.VStr (l_dirname L))
  else if String.eqb name "m" then Some (Py.VObject (Py.match_repr E (l_m L)))
  else Py.outer E name.

(** The exception of class [kind] that an evaluated expression raised:
    an [IndexError] is the same exception as the one of the source's own
    subscripts. *)
Definition raised (kind : string) : exn :=
  if String.eqb kind "IndexError" then IndexError else EvalError kind.

(** [eval(e)] in the function's scope. *)
Definition eval (L : locals) (e : string) : outcome Py.value :=
  if Py.is_identifier e then
    match lookup L e with
    | Some v => Ok v
    | None => Raise (NameError e)
    end
  else
    match Py.eval_other E e (lookup L) with
    | Py.Value v => Ok v
    | Py.Exception kind => Raise (raised kind)
    end.

(** Lines 154-157: [i]. *)
Definition bind_i (shard_idx : list Z) : outcome (option Z) :=
  (x <- Py.subscript shard_idx 0 ;;
   if (x >? -1)%Z then (i <- Py.subscript shard_idx 0 ;; Ok (Some i))
   else Ok None)%outcome.

(** Lines 158-165: [j] and [k], at position [n] = 1 and 2. *)
Definition bind_nested (n : nat) (shard_idx : list Z) : outcome (option Z) :=
  (if (n <? List.length shard_idx)%nat then
     x <- Py.subscript shard_idx n ;;
     if (x >? -1)%Z then (j <- Py.subscript shard_idx n ;; Ok (Some j))
     else Ok None
   else Ok None)%outcome.

(** What lines 154-165 bind a name to, for a tuple that has the
    position. *)
Definition index_at (n : nat) (shard_idx : list Z) : option Z :=
  match nth_error shard_idx n with
  | Some x => if (x >? -1)%Z then Some x else None
  | None => None
  end.

(** Lines 169-175: the [while True] loop; one unit of fuel for each
    [re.search]. *)
Fixpoint loop (fuel : nat) (s full_path : string) (shard_idx : list Z)
    (i j k : option Z) (basename dirname : string) (result : string)
    : outcome string :=
  match fuel with
  | O => OutOfFuel
  | S fuel' =>
      match Re.search result with
      | None => Ok result
      | Some m =>
          let L := Locals s full_path shard_idx result i j k
                          basename dirname m in
          (v <- eval L (Re.group1 m) ;;
           loop fuel' s full_path shard_idx i j k basename dirname
                (Str.replace1 result (Re.group0 m) (Py.str v)))%outcome
      end
  end.

(** The values of [result] the loop goes through, from the template
    [s] on. *)
Inductive reaches (s full_path : string) (shard_idx : list Z)
    (i j k : option Z) : string -> Prop :=
| reaches_start : reaches s full_path shard_idx i j k s
| reaches_next : forall result m v,
    reaches s full_path shard_idx i j k result ->
    Re.search result = Some m ->
    eval (Locals s full_path shard_idx result i j k
                 (Path.basename full_path) (Path.dirname full_path) m)
         (Re.group1 m) = Ok v ->
    reaches s full_path shard_idx i j k
            (Str.replace1 result (Re.group0 m) (Py.str v)).

(** The value of [result] after a number of turns of the loop. *)
Inductive comes_to (s full_path : string) (shard_idx : list Z)
    (i j k : option Z) : nat -> string -> Prop :=
| comes_to_start : comes_to s full_path shard_idx i j k 0 s
| comes_to_next : forall turns result m v,
    comes_to s full_path shard_idx i j k turns result ->
    Re.search result = Some m ->
    eval (Locals s full_path shard_idx result i j k
                 (Path.basename full_path) (Path.dirname full_path) m)
         (Re.group1 m) = Ok v ->
    comes_to s full_path shard_idx i j k (S turns)
             (Str.replace1 result (Re.group0 m) (Py.str v)).

Definition interpret_inline_exp (fuel : nat) (s full_path : string)
    (shard_idx : list Z) : outcome string :=
  (let result := s in
   i <- bind_i shard_idx ;;
   j <- bind_nested 1 shard_idx ;;
   k <- bind_nested 2 shard_idx ;;
   let basename := Path.basename full_path in
   let dirname := Path.dirname full_path in
   loop fuel s full_path shard_idx i j k basename dirname result)%outcome.

End WithEnv.

(** The names the module's own statements bind (lines 9-18, 21, 178 and
    226). *)
Definition module_names : list string :=
  [ "os"; "sys"; "json"; "re"; "caper"; "init_caper_uri"; "CaperURI";
    "URI_LOCAL"; "parse_croo_arguments"; "CrooHtmlReport";
    "CromwellMetadata"; "Croo"; "init_dirs_args"; "main" ].

(** An environment in which the module's names are bound to objects, the
    text of an object being written [<name>] here, and every expression
    other than a name is a syntax error. *)
Definition module_env : Py.env :=
  Py.Env (fun name =>
            if existsb (String.eqb name) module_names
            then Some (Py.VObject ("<" ++ name ++ ">"))
            else None)
         (fun _ => "<re.Match object>")
         (fun _ _ => Py.Exception "SyntaxError").

(** An environment with nothing bound outside the function and in which
    every expression other than a name is a syntax error. *)
Definition bare_env : Py.env :=
  Py.Env (fun _ => None) (fun _ => "<re.Match object>")
         (fun _ _ => Py.Exception "SyntaxError").

(** The position [n] of an expression [shard_idx[n]] with a decimal
    [n]. *)
Definition subscript_position (e : string) : option nat :=
  if Str.startswith e "shard_idx[" && Str.endswith_char e "]"%char then
    let digits := substring 10 (String.length e - 11) e in
    match NilZero.uint_of_string digits with
    | Some n => Some (Nat.of_uint n)
    | None => None
    end
  else None.

(** An environment like [bare_env] that also evaluates the subscripts
    [shard_idx[n]] of the tuple, as Python does: the item at the
    position, or an [IndexError] when the tuple is too short. *)
Definition subscript_env : Py.env :=
  Py.Env (fun _ => None) (fun _ => "<re.Match object>")
         (fun e lookup =>
            match subscript_position e, lookup "shard_idx" with
            | Some n, Some (Py.VTuple t) =>
                match nth_error t n with
                | Some z => Py.Value (Py.VInt z)
                | None => Py.Exception "IndexError"
                end
            | _, _ => Py.Exception "SyntaxError"
            end).

End Interp.

(* ================================================================== *)
(** ** [Croo.organize_output] *)

Module Organize.

(** A leaf of the output definition JSON: [out_var.get('path')],
    [out_var.get('table')] and [out_var.get('ucsc_track')]; [None] when the
    key is missing. *)
Record out_var : Type := OutVar {
  path : option string;
  table : option string;
  ucsc_track : option string
}.

(** [self._out_def_json]: task name, then output variable name, in the
    order [.items()] gives them. *)
Definition out_def : Type := list (string * list (string * out_var)).

(** A node of the task graph: [task['task_name']], [task['out_files']] and
    [task['shard_idx']]. *)
Record task : Type := Task {
  task_name : string;
  out_files : list (string * string);
  shard_idx : list Z
}.

(** The calls made to the collaborators, in the order they are made. *)
Inductive call : Type :=
| Copy (source target_uri : string) (soft_link : bool)
| GetUrl (uri : string)
| AddToFileTable (uri : string) (url : option string) (item : string)
| AddToUcscTrack (url : string) (track : string)
| SaveToFile.

(** What [CaperURI] answers: the URI [copy] returns for a source, a target
    and the link flag, and the URL, if any, [get_url] returns for a URI. *)
Record caper : Type := Caper {
  copy : string -> string -> bool -> string;
  get_url : string -> option string
}.

(** A computation that makes calls and then returns, raises or runs out
    of fuel. *)
Definition M (A : Type) : Type := (list call * outcome A)%type.

Definition ret {A : Type} (a : A) : M A := ([], Ok a).

Definition bind {A B : Type} (x : M A) (f : A -> M B) : M B :=
  match x with
  | (t, Ok a) => let '(t', r) := f a in ((t ++ t')%list, r)
  | (t, Raise e) => (t, Raise e)
  | (t, OutOfFuel) => (t, OutOfFuel)
  end.

Definition emit (c : call) : M unit := ([c], Ok tt).

Definition lift {A : Type} (x : outcome A) : M A := ([], x).

(** [for x in xs: body(x)] *)
Fixpoint for_each {A : Type} (xs : list A) (body : A -> M unit) : M unit :=
  match xs with
  | [] => ret tt
  | x :: r => bind (body x) (fun _ => for_each r body)
  end.

Declare Scope croo_scope.
Delimit Scope croo_scope with croo.
Notation "x <- c ;; k" := (bind c (fun x => k))
  (at level 61, c at next level, right associativity) : croo_scope.
Notation "c ;; k" := (bind c (fun _ => k))
  (at level 61, right associativity) : croo_scope.

Section WithCroo.

Variable E : Py.env.
Variable C : caper.
Variable node : Type.

(** The fields of the [Croo] object the method reads. *)
Variable out_dir : string.
Variable soft_link : bool.
Variable out_def_json : out_def.
Variable nodes : list (node * task).

Variable fuel : nat.

(** Lines 97-109: the target URI of the file, after the copy when the
    output variable has a [path]. *)
Definition place_file (ov : out_var) (t : task) (full_path : string)
    : M string :=
  (match path ov with
   | Some p =>
       interpreted_path <-
         lift (Interp.interpret_inline_exp E fuel p full_path (shard_idx t)) ;;
       let target := Path.join out_dir interpreted_path in
       emit (Copy full_path target soft_link) ;;
       ret (copy C full_path target soft_link)
   | None => ret full_path
   end)%croo.

(** Lines 114-120: the entry of the file table. *)
Definition add_table (ov : out_var) (t : task) (full_path target_uri : string)
    (target_url : option string) : M unit :=
  (match table ov with
   | Some table_item =>
       interpreted_table_item <-
         lift (Interp.interpret_inline_exp E fuel table_item full_path
                 (shard_idx t)) ;;
       emit (AddToFileTable target_uri target_url interpreted_table_item)
   | None => ret tt
   end)%croo.

(** Lines 121-125: the UCSC track. *)
Definition add_track (ov : out_var) (t : task) (full_path : string)
    (target_url : option string) : M unit :=
  (match ucsc_track ov, target_url with
   | Some track, Some url =>
       interpreted_ucsc_track <-
         lift (Interp.interpret_inline_exp E fuel track full_path
                 (shard_idx t)) ;;
       emit (AddToUcscTrack url interpreted_ucsc_track)
   | _, _ => ret tt
   end)%croo.

(** Lines 97-125: the body run for an output file whose name is the
    output variable's. *)
Definition organize_file (ov : out_var) (t : task) (full_path : string)
    : M unit :=
  (target_uri <- place_file ov t full_path ;;
   emit (GetUrl target_uri) ;;
   let target_url := get_url C target_uri in
   add_table ov t full_path target_uri target_url ;;
   add_track ov t full_path target_url)%croo.

(** The calls that follow the lookup of the URL: the table entry, then
    the track when the table entry was added or not asked for. *)
Definition report_calls (ov : out_var) (t : task) (full_path uri : string)
    : list call :=
  (fst (add_table ov t full_path uri (get_url C uri)) ++
   match snd (add_table ov t full_path uri (get_url C uri)) with
   | Ok _ => fst (add_track ov t full_path (get_url C uri))
   | _ => []
   end)%list.

(** Lines 87-125: the loops over the nodes and over a node's files. *)
Definition organize_task (name out_var_name : string) (ov : out_var)
    (t : task) : M unit :=
  if negb (String.eqb name (task_name t)) then ret tt
  else
    for_each (out_files t) (fun '(k, full_path) =>
      if negb (String.eqb k out_var_name) then ret tt
      else organize_file ov t full_path).

(** Lines 82-125: one output variable of the definition. *)
Definition organize_out_var (name out_var_name : string) (ov : out_var)
    : M unit :=
  for_each nodes (fun '(_, t) => organize_task name out_var_name ov t).

(** Lines 81-128.  The construction of the report (lines 75-79) makes none
    of the calls recorded here. *)
Definition organize_output : M unit :=
  (for_each out_def_json (fun '(name, out_vars) =>
     for_each out_vars (fun '(out_var_name, ov) =>
       organize_out_var name out_var_name ov)) ;;
   emit SaveToFile)%croo.

(** *** The matches, as the specification lists them *)

(** The files of a node that an entry of the definition matches, in the
    order of the node's output list. *)
Definition matching_files (name out_var_name : string) (t : task)
    : list string :=
  if String.eqb name (task_name t) then
    map snd (filter (fun kf => String.eqb (fst kf) out_var_name) (out_files t))
  else [].

(** The matches of one entry: the nodes in traversal order, then the
    files in output-list order. *)
Definition entry_matches (name out_var_name : string) (ov : out_var)
    : list (out_var * task * string) :=
  flat_map (fun nt =>
              map (fun f => (ov, snd nt, f))
                  (matching_files name out_var_name (snd nt)))
           nodes.

(** All the matches: the definition in its declared order (task name,
    then output variable name), then the order within an entry. *)
Definition matches : list (out_var * task * string) :=
  flat_map (fun d =>
              flat_map (fun v => entry_matches (fst d) (fst v) (snd v))
                       (snd d))
           out_def_json.

Definition organize_match (m : out_var * task * string) : M unit :=
  let '(ov, t, f) := m in organize_file ov t f.

(** *** The calls of a match, as the specification lists its steps *)

(** The text of a template that is present and that the interpreter
    resolves. *)
Definition resolved (template : option string) (t : task) (full_path : string)
    : option string :=
  match template with
  | Some s =>
      match Interp.interpret_inline_exp E fuel s full_path (shard_idx t) with
      | Ok text => Some text
      | _ => None
      end
  | None => None
  end.

(** The final location of a match: what the copy to the destination
    candidate returns when there is a [path], the location of the file
    when there is none. *)
Definition target_location (m : out_var * task * string) : string :=
  let '(ov, t, f) := m in
  match resolved (path ov) t f with
  | Some interpreted_path =>
      copy C f (Path.join out_dir interpreted_path) soft_link
  | None => f
  end.

(** The calls of one match whose templates resolve: the placement at the
    destination candidate when there is a [path], the lookup of the URL of
    the final location, the table entry when there is a [table], and the
    track entry when there is a track and a URL. *)
Definition placement_calls (m : out_var * task * string) : list call :=
  let '(ov, t, f) := m in
  let target_uri := target_location m in
  let target_url := get_url C target_uri in
  (match resolved (path ov) t f with
   | Some interpreted_path =>
       [Copy f (Path.join out_dir interpreted_path) soft_link]
   | None => []
   end ++
   [GetUrl target_uri] ++
   match resolved (table ov) t f with
   | Some item => [AddToFileTable target_uri target_url item]
   | None => []
   end ++
   match target_url, resolved (ucsc_track ov) t f with
   | Some url, Some track => [AddToUcscTrack url track]
   | _, _ => []
   end)%list.

End WithCroo.

Definition has_path (ov : out_var) : bool :=
  match path ov with Some _ => true | None => false end.

(** Views of a trace. *)

(** The sources of the copies asked for, in order. *)
Definition copied (tr : list call) : list string :=
  flat_map (fun c => match c with Copy source _ _ => [source] | _ => [] end) tr.

(** The URIs a URL was asked for, in order. *)
Definition located (tr : list call) : list string :=
  flat_map (fun c => match c with GetUrl uri => [uri] | _ => [] end) tr.

Definition is_copy (c : call) : bool :=
  match c with Copy _ _ _ => true | _ => false end.

Definition is_get_url (c : call) : bool :=
  match c with GetUrl _ => true | _ => false end.

Definition is_table (c : call) : bool :=
  match c with AddToFileTable _ _ _ => true | _ => false end.

Definition is_track (c : call) : bool :=
  match c with AddToUcscTrack _ _ => true | _ => false end.

(** The scenario of the documentation: one output variable with a [path]
    and a [table], and one node that has the file. *)
Definition example_def : out_def :=
  [ ("align",
     [ ("bam", OutVar (Some "align/rep${i}/${basename}") (Some "BAM rep${i}")
                      None) ]) ].

Definition example_nodes : list (nat * task) :=
  [ (0, Task "align" [ ("bam", "/work/xyz.bam") ] [0%Z; (-1)%Z; (-1)%Z]) ].

(** The same output variable without a [path] and with a track, and a node
    that lists the output variable twice. *)
Definition pathless_def : out_def :=
  [ ("align", [ ("bam", OutVar None (Some "BAM rep${i}") (Some "track ${i}")) ]) ].

Definition twice_nodes : list (nat * task) :=
  [ (0, Task "align" [ ("bam", "/work/xyz.bam"); ("bai", "/work/xyz.bai");
                       ("bam", "/work/xyz.bam") ]
             [0%Z; (-1)%Z; (-1)%Z]) ].

(** A definition with two entries, and a graph that lists the node of the
    second entry first, then two scattered nodes of the first entry, one of
    them with two files. *)
Definition ordered_def : out_def :=
  [ ("align",
     [ ("bam", OutVar (Some "align/rep${i}/${basename}") (Some "BAM rep${i}")
                      None) ]);
    ("qc", [ ("html", OutVar (Some "qc/${basename}") None None) ]) ].

Definition ordered_nodes : list (nat * task) :=
  [ (0, Task "qc" [ ("html", "/work/qc.html") ] [(-1)%Z]);
    (1, Task "align" [ ("bam", "/work/a.bam"); ("bam", "/work/b.bam") ] [0%Z]);
    (2, Task "align" [ ("bam", "/work/c.bam") ] [1%Z]) ].

(** A collaborator that copies to the target asked for and has no URL for
    anything, and one that has a URL for everything. *)
Definition local_caper : caper := Caper (fun _ target _ => target) (fun _ => None).

Definition url_caper : caper :=
  Caper (fun _ target _ => target) (fun uri => Some ("http://host" ++ uri)).

End Organize.

(* ================================================================== *)
(** ** Templates written as pieces *)

Module Template.

(** A template is text in which some placeholders name a variable. *)
Inductive piece : Type :=
| Text (t : string)
| Hole (name : string).

Fixpoint render (ps : list piece) : string :=
  match ps with
  | [] => ""
  | Text t :: r => t ++ render r
  | Hole name :: r => Re.placeholder name ++ render r
  end.

Fixpoint holes (ps : list piece) : nat :=
  match ps with
  | [] => 0
  | Text _ :: r => holes r
  | Hole _ :: r => S (holes r)
  end.

(** The docstring's table of supported expressions: what each name stands
    for, given the file and the scatter indices. *)
Definition binding (full_path : string) (shard_idx : list Z) (name : string)
    : option Py.value :=
  if String.eqb name "i" then
    Some (Interp.int_or_none (Interp.index_at 0 shard_idx))
  else if String.eqb name "j" then
    Some (Interp.int_or_none (Interp.index_at 1 shard_idx))
  else if String.eqb name "k" then
    Some (Interp.int_or_none (Interp.index_at 2 shard_idx))
  else if String.eqb name "basename" then
    Some (Py.VStr (Path.basename full_path))
  else if String.eqb name "dirname" then
    Some (Py.VStr (Path.dirname full_path))
  else if String.eqb name "full_path" then Some (Py.VStr full_path)
  else if String.eqb name "shard_idx" then Some (Py.VTuple shard_idx)
  else None.

(** Every hole replaced by the text of what its name stands for. *)
Fixpoint fill (full_path : string) (shard_idx : list Z) (ps : list piece)
    : string :=
  match ps with
  | [] => ""
  | Text t :: r => t ++ fill full_path shard_idx r
  | Hole name :: r =>
      match binding full_path shard_idx name with
      | Some v => Py.str v ++ fill full_path shard_idx r
      | None => Re.placeholder name ++ fill full_path shard_idx r
      end
  end.

(** The pieces a template may be made of for [fill] to describe the
    interpreter: text without [$] and holes for supported names. *)
Definition plain (p : piece) : bool :=
  match p with
  | Text t => negb (Str.mem Str.dollar t)
  | Hole name => existsb (String.eqb name) Interp.supported
  end.

End Template.

(* ================================================================== *)
(** ** The TSV file that maps paths to URLs *)

Module Tsv.

Definition tab : ascii := "009"%char.

(** [s.lstrip(c)] for a single character *)
Fixpoint lstrip (c : ascii) (s : string) : string :=
  match s with
  | EmptyString => EmptyString
  | String d r => if Ascii.eqb d c then lstrip c r else s
  end.

(** [s.strip(c)] for a single character *)
Definition strip (c : ascii) (s : string) : string :=
  Str.rstrip c (lstrip c s).

(** [s.split(c)] for a single character *)
Fixpoint split (c : ascii) (s : string) : list string :=
  match s with
  | EmptyString => [EmptyString]
  | String d r =>
      if Ascii.eqb d c then EmptyString :: split c r
      else match split c r with
           | h :: t => String d h :: t
           | [] => [String d EmptyString]
           end
  end.

(** A [dict] with string keys and values, in insertion order. *)
Definition dict : Type := list (string * string).

(** [d[k] = v] *)
Fixpoint set (k v : string) (d : dict) : dict :=
  match d with
  | [] => [(k, v)]
  | (k', v') :: r =>
      if String.eqb k k' then (k, v) :: r else (k', v') :: set k v r
  end.

(** [d.get(k)] *)
Fixpoint get (k : string) (d : dict) : option string :=
  match d with
  | [] => None
  | (k', v') :: r => if String.eqb k k' then Some v' else get k r
  end.

(** The dict after [d[k] = v] for every pair, in order. *)
Definition assign_all (kvs : list (string * string)) (d : dict) : dict :=
  fold_left (fun d kv => set (fst kv) (snd kv) d) kvs d.

(** Lines 204-206: [for line in lines: k, v = line.split('\t');
    mapping_path_to_url[k] = v]; [None] when a line does not unpack into two
    values. *)
Fixpoint read_lines (lines : list string) (mapping : dict) : option dict :=
  match lines with
  | [] => Some mapping
  | line :: r =>
      match split tab line with
      | [k; v] => read_lines r (set k v mapping)
      | _ => None
      end
  end.

(** Lines 200-206, from the text of the file on. *)
Definition read (text : string) : option dict :=
  read_lines (split Str.newline (strip Str.newline text)) [].

(** A file that has one line [k <tab> v] for each pair. *)
Definition line (kv : string * string) : string :=
  fst kv ++ String tab (snd kv).

Fixpoint write (kvs : list (string * string)) : string :=
  match kvs with
  | [] => ""
  | [kv] => line kv
  | kv :: r => line kv ++ String Str.newline (write r)
  end.

Fixpoint newlines (n : nat) : string :=
  match n with
  | O => ""
  | S n' => String Str.newline (newlines n')
  end.

(** A text that can be a key or a value of the file. *)
Definition cell (s : string) : bool :=
  negb (Str.mem tab s) && negb (Str.mem Str.newline s).

Definition cells (kv : string * string) : bool :=
  cell (fst kv) && cell (snd kv).

End Tsv.

(* ================================================================== *)
(** ** [Croo.__init__], [init_dirs_args] and [main] *)

Module Cli.

(** The keys of [args] the functions read. *)
Record args : Type := Args {
  out_dir : string;
  tmp_dir : option string;
  tsv_mapping_path_to_url : option string;
  metadata_json : string;
  out_def_json : option string;
  method : string
}.

(** The calls made, in order: directories, the setup of [CaperURI], the
    warning printed, and the calls of [organize_output]. *)
Inductive event : Type :=
| Makedirs (path : string)
| InitCaperUri (tmp_dir : string) (mapping_path_to_url : option Tsv.dict)
| Print (text : string)
| Organized (c : Organize.call).

Inductive failure : Type :=
| ValueError (text : string)
| Exception (text : string)
| Raised (e : exn)
| Unfinished.

Inductive result (A : Type) : Type :=
| Done (a : A)
| Failed (f : failure).

Arguments Done {A} a.
Arguments Failed {A} f.

Definition R (A : Type) : Type := (list event * result A)%type.

Definition ret {A : Type} (a : A) : R A := ([], Done a).

Definition fail {A : Type} (f : failure) : R A := ([], Failed f).

Definition emit (e : event) : R unit := ([e], Done tt).

Definition bind {A B : Type} (x : R A) (k : A -> R B) : R B :=
  match x with
  | (t, Done a) => let '(t', r) := k a in ((t ++ t')%list, r)
  | (t, Failed f) => (t, Failed f)
  end.

Declare Scope cli_scope.
Delimit Scope cli_scope with cli.
Notation "x <- c ;; k" := (bind c (fun x => k))
  (at level 61, c at next level, right associativity) : cli_scope.
Notation "c ;; k" := (bind c (fun _ => k))
  (at level 61, right associativity) : cli_scope.

(** The calls and the outcome of [organize_output], as events. *)
Definition organized (x : Organize.M unit) : R unit :=
  (map Organized (fst x),
   match snd x with
   | Ok a => Done a
   | Raise e => Failed (Raised e)
   | OutOfFuel => Failed Unfinished
   end).

Definition url_not_allowed : string := "URL is not allowed for --out-dir".

(** Stands for Python's message when a line does not unpack into two
    values; its wording depends on the number of values. *)
Definition unpack_error : string := "wrong number of values to unpack".

Definition metadata_empty : string := "metadata JSON file is empty".

Definition multiple_metadata : string :=
  "[Croo] Warning: multiple metadata JSON objects found in metadata JSON file. Taking the first one...".

Definition out_def_undefined : string :=
  "out_def JSON file is not defined. Define --out-def-json in cmd line arg or add "
  ++ String "034"%char "#CROO out_def [URL_OR_CLOUD_URI]"
  ++ String "034"%char " to your WDL".

Section WithWorld.

(** A metadata document and a node key of the task graph, as
    [CromwellMetadata] has them. *)
Variables doc node : Type.

(** What [json.loads] gives for a metadata file: one document, or a list
    of them. *)
Inductive loaded : Type :=
| One (d : doc)
| Many (l : list doc).

(** The [metadata_json] argument: a [dict], or the path of a file. *)
Inductive metadata_arg : Type :=
| MetadataDict (d : doc)
| MetadataFile (uri : string).

(** The [out_def_json] argument: a [dict], the path of a file, or [None]. *)
Inductive out_def_arg : Type :=
| OutDefDict (d : Organize.out_def)
| OutDefFile (uri : string)
| OutDefNone.

(** What the functions ask of the system and of the other modules: the
    current directory, [os.path.expanduser] and [os.path.abspath], the text
    of a file, the documents [json.loads] gives for a metadata file and for
    an output definition file, and what [CromwellMetadata] answers.  A file
    that cannot be read or parsed is not modelled. *)
Record world : Type := World {
  getcwd : string;
  expanduser : string -> string;
  abspath : string -> string;
  read_text : string -> string;
  load_metadata : string -> loaded;
  load_out_def : string -> Organize.out_def;
  get_out_def_json_file : doc -> option string;
  get_task_graph : doc -> list (node * Organize.task);
  py : Py.env;
  caper_uri : Organize.caper
}.

(** The fields of a [Croo] object that [organize_output] reads. *)
Record croo : Type := Croo {
  _metadata : doc;
  _out_dir : string;
  _out_def_json : Organize.out_def;
  _task_graph : list (node * Organize.task);
  _soft_link : bool
}.

Variable W : world.

(** Lines 35-48: the metadata. *)
Definition init_metadata (metadata_json : metadata_arg) : R doc :=
  (match metadata_json with
   | MetadataDict d => ret d
   | MetadataFile uri =>
       match load_metadata W uri with
       | One d => ret d
       | Many [] => fail (Exception metadata_empty)
       | Many [d] => ret d
       | Many (d :: _ :: _) => emit (Print multiple_metadata) ;; ret d
       end
   end)%cli.

(** Lines 54-67: the output definition. *)
Definition init_out_def (metadata : doc) (out_def_json : out_def_arg)
    : R Organize.out_def :=
  match out_def_json with
  | OutDefDict d => ret d
  | OutDefFile uri => ret (load_out_def W uri)
  | OutDefNone =>
      match get_out_def_json_file W metadata with
      | None => fail (ValueError out_def_undefined)
      | Some uri => ret (load_out_def W uri)
      end
  end.

(** [Croo.__init__], lines 29-70. *)
Definition init (metadata_json : metadata_arg) (out_def_json : out_def_arg)
    (out_dir : string) (soft_link : bool) : R croo :=
  (metadata <- init_metadata metadata_json ;;
   out_def <- init_out_def metadata out_def_json ;;
   ret (Croo metadata out_dir out_def (get_task_graph W metadata) soft_link))%cli.

Definition is_url (s : string) : bool :=
  Str.startswith s "http://" || Str.startswith s "https://".

Definition is_bucket (s : string) : bool :=
  Str.startswith s "gs://" || Str.startswith s "s3://".

(** Lines 198-206: the mapping from paths to URLs. *)
Definition read_mapping (a : args) : R (option Tsv.dict) :=
  match tsv_mapping_path_to_url a with
  | None => ret None
  | Some path =>
      match Tsv.read (read_text W (expanduser W path)) with
      | Some mapping => ret (Some mapping)
      | None => fail (ValueError unpack_error)
      end
  end.

(** [args] after [if args.get('tmp_dir') is None: args['tmp_dir'] = default]. *)
Definition with_tmp_dir (a : args) (default : string) : args :=
  match tmp_dir a with
  | None =>
      Args (out_dir a) (Some default) (tsv_mapping_path_to_url a)
           (metadata_json a) (out_def_json a) (method a)
  | Some _ => a
  end.

(** [args['tmp_dir']] after that statement. *)
Definition tmp_dir_or (a : args) (default : string) : string :=
  match tmp_dir a with
  | None => default
  | Some t => t
  end.

(** [args] with [args['out_dir']] replaced. *)
Definition with_out_dir (a : args) (out : string) : args :=
  Args out (tmp_dir a) (tsv_mapping_path_to_url a) (metadata_json a)
       (out_def_json a) (method a).

(** [init_dirs_args], lines 178-224; the value returned is [args] as the
    function leaves it.  The other keys of [args] that are passed on to
    [init_caper_uri] are not read by the function and are left out. *)
Definition init_dirs_args (a : args) : R args :=
  (if is_url (out_dir a) then fail (ValueError url_not_allowed)
   else
     branch <-
       (if is_bucket (out_dir a) then
          ret (a, Path.join (getcwd W) ".croo_tmp")
        else
          let a' := with_out_dir a (abspath W (expanduser W (out_dir a))) in
          emit (Makedirs (out_dir a')) ;;
          ret (a', Path.join (out_dir a') ".croo_tmp")) ;;
     let a1 := with_tmp_dir (fst branch) (snd branch) in
     let tmp := tmp_dir_or (fst branch) (snd branch) in
     emit (Makedirs tmp) ;;
     mapping_path_to_url <- read_mapping a1 ;;
     emit (InitCaperUri tmp mapping_path_to_url) ;;
     ret a1)%cli.

(** [main], lines 226-243, from the parsed arguments on. *)
Definition main (fuel : nat) (parsed : args) : R Z :=
  (a <- init_dirs_args parsed ;;
   co <- init (MetadataFile (metadata_json a))
              (match out_def_json a with
               | Some uri => OutDefFile uri
               | None => OutDefNone
               end)
              (out_dir a) (String.eqb (method a) "link") ;;
   organized (Organize.organize_output (py W) (caper_uri W) (_out_dir co)
                (_soft_link co) (_out_def_json co) (_task_graph co) fuel) ;;
   ret 0%Z)%cli.

End WithWorld.

(** A world for examples: the home directory is not abbreviated, relative
    paths are under [/cwd], the metadata file holds a list of two
    documents, and the output definition and the task graph are those of
    the documentation's scenario. *)
Definition example_world : world unit nat :=
  World "/cwd" (fun s => s)
        (fun s => if Str.startswith s "/" then s else "/cwd/" ++ s)
        (fun _ => "/out/a.bam" ++ String Tsv.tab "http://host/a.bam")
        (fun _ => Many [tt; tt])
        (fun _ => Organize.example_def) (fun _ => None)
        (fun _ => Organize.example_nodes) Interp.bare_env Organize.local_caper.

Definition example_args : args :=
  Args "out" None None "metadata.json" (Some "out_def.json") "link".

End Cli.

(* ================================================================== *)
(** * Properties *)

Unset Implicit Arguments.

(** ** Strings and the pattern *)

Lemma append_empty_r (s : string) : s ++ "" = s.
Proof. induction s as [|c r IH]; simpl; [reflexivity | now rewrite IH]. Qed.

Lemma append_assoc (a b c : string) : (a ++ b) ++ c = a ++ (b ++ c).
Proof. induction a as [|x a IH]; simpl; [reflexivity | now rewrite IH]. Qed.

Lemma count_append (c : ascii) (a b : string) :
  Str.count c (a ++ b) = Str.count c a + Str.count c b.
Proof. induction a as [|x a IH]; simpl; [reflexivity | rewrite IH; lia]. Qed.

Lemma mem_count (c : ascii) (s : string) :
  Str.mem c s = false <-> Str.count c s = 0.
Proof.
  induction s as [|d r IH]; simpl; [tauto|].
  destruct (Ascii.eqb d c); simpl; [split; [discriminate | lia] | exact IH].
Qed.

Lemma mem_append (c : ascii) (a b : string) :
  Str.mem c (a ++ b) = Str.mem c a || Str.mem c b.
Proof.
  induction a as [|x a IH]; simpl; [reflexivity|].
  now rewrite IH, orb_assoc.
Qed.

Lemma prefix_split (p s : string) :
  String.prefix p s = true -> s = p ++ Str.drop (String.length p) s.
Proof.
  revert s; induction p as [|c p IH]; intros s H; [reflexivity|].
  destruct s as [|d s]; simpl in H; [discriminate|].
  destruct (Ascii.ascii_dec c d) as [->|]; [|discriminate].
  simpl. f_equal. now apply IH.
Qed.

Lemma prefix_append (p s : string) : String.prefix p (p ++ s) = true.
Proof.
  induction p as [|c p IH]; simpl; [now destruct s|].
  destruct (Ascii.ascii_dec c c); [exact IH | congruence].
Qed.

Lemma drop_append (a b : string) : Str.drop (String.length a) (a ++ b) = b.
Proof. induction a as [|c a IH]; simpl; [reflexivity | exact IH]. Qed.

Lemma replace1_eq (s old new : string) :
  Str.replace1 s old new =
  if Str.startswith s old then new ++ Str.drop (String.length old) s
  else match s with
       | EmptyString => EmptyString
       | String c r => String c (Str.replace1 r old new)
       end.
Proof. destruct s; reflexivity. Qed.

(** [replace1] replaces an occurrence when there is one. *)
Lemma replace1_occurs (old new pre suf : string) :
  exists pre' suf',
    pre ++ old ++ suf = pre' ++ old ++ suf' /\
    Str.replace1 (pre ++ old ++ suf) old new = pre' ++ new ++ suf'.
Proof.
  induction pre as [|c pre IH]; cbn [append].
  - exists "", suf. split; [reflexivity|].
    rewrite replace1_eq. unfold Str.startswith.
    now rewrite prefix_append, drop_append.
  - rewrite replace1_eq.
    destruct (Str.startswith (String c (pre ++ old ++ suf)) old) eqn:P.
    + exists "", (Str.drop (String.length old) (String c (pre ++ old ++ suf))).
      split; [|reflexivity]. cbn [append]. now apply prefix_split.
    + destruct IH as (pre' & suf' & E1 & E2).
      exists (String c pre'), suf'. cbn [append]. now rewrite E1, E2 at 1.
Qed.

Lemma lazy_body_split (s e : string) :
  Re.lazy_body s = Some e ->
  exists suf, s = e ++ String Str.rbrace suf /\
              Str.mem Str.rbrace e = false /\ Str.mem Str.newline e = false.
Proof.
  revert e; induction s as [|c r IH]; intros e H; simpl in H; [discriminate|].
  destruct (Ascii.eqb c Str.rbrace) eqn:B.
  - apply Ascii.eqb_eq in B. subst c. injection H as <-. now exists r.
  - destruct (Ascii.eqb c Str.newline) eqn:N; [discriminate|].
    destruct (Re.lazy_body r) as [e'|]; [|discriminate].
    injection H as <-. destruct (IH e' eq_refl) as (suf & -> & Hb & Hn).
    exists suf. simpl. now rewrite B, N.
Qed.

Lemma match_here_split (s e : string) :
  Re.match_here s = Some e -> exists suf, s = Re.placeholder e ++ suf.
Proof.
  destruct s as [|c [|d r]]; simpl; try discriminate.
  destruct (Ascii.eqb c Str.dollar) eqn:C; [|discriminate].
  destruct (Ascii.eqb d Str.lbrace) eqn:D; [|discriminate].
  simpl. intros H. apply lazy_body_split in H as (suf & -> & _).
  apply Ascii.eqb_eq in C, D. subst. exists suf.
  unfold Re.placeholder. simpl. now rewrite append_assoc.
Qed.

(** The match [re.search] returns is a placeholder that occurs in the
    string. *)
Lemma search_from_occurs (s : string) : forall pos m,
  Re.search_from pos s = Some m ->
  Re.group0 m = Re.placeholder (Re.group1 m) /\
  exists pre suf, s = pre ++ Re.group0 m ++ suf.
Proof.
  induction s as [|c r IH]; intros pos m H.
  - simpl in H. discriminate.
  - cbn [Re.search_from] in H.
    destruct (Re.match_here (String c r)) as [e|] eqn:M.
    + injection H as <-. simpl. split; [reflexivity|].
      apply match_here_split in M as (suf & ->). now exists "", suf.
    + apply IH in H as (G & pre & suf & ->). split; [exact G|].
      now exists (String c pre), suf.
Qed.

Lemma search_no_dollar (s : string) :
  Str.mem Str.dollar s = false -> Re.search s = None.
Proof.
  unfold Re.search. generalize 0.
  induction s as [|c r IH]; intros pos H; [reflexivity|].
  simpl in H. apply orb_false_iff in H as [Hc Hr].
  cbn [Re.search_from].
  assert (M : Re.match_here (String c r) = None).
  { destruct r as [|d r']; simpl; [reflexivity | now rewrite Hc]. }
  rewrite M. now apply IH.
Qed.

Lemma count_placeholder (e : string) :
  Str.count Str.dollar (Re.placeholder e) >= 1.
Proof. unfold Re.placeholder. simpl. lia. Qed.

(** ** [str()] of an [int] *)

Lemma string_of_uint_no_dollar (d : Decimal.uint) :
  Str.mem Str.dollar (NilEmpty.string_of_uint d) = false.
Proof. induction d; simpl; auto. Qed.

Lemma str_of_int_no_dollar (z : Z) :
  Str.mem Str.dollar (Py.str_of_int z) = false.
Proof.
  unfold Py.str_of_int, NilZero.string_of_int, NilZero.string_of_uint.
  destruct (Z.to_int z) as [d|d]; destruct d; simpl;
    try reflexivity; apply string_of_uint_no_dollar.
Qed.

(** ** The interpreter *)

Section InterpFacts.

Variable E : Py.env.

Lemma bind_i_nil : Interp.bind_i [] = Raise IndexError.
Proof. reflexivity. Qed.

Lemma bind_i_eq (sh : list Z) :
  sh <> [] -> Interp.bind_i sh = Ok (Interp.index_at 0 sh).
Proof.
  destruct sh as [|x r]; [congruence|]. intros _.
  unfold Interp.bind_i, Interp.index_at. simpl.
  now destruct (x >? -1)%Z.
Qed.

Lemma bind_nested_eq (n : nat) (sh : list Z) :
  Interp.bind_nested n sh = Ok (Interp.index_at n sh).
Proof.
  unfold Interp.bind_nested, Interp.index_at, Py.subscript.
  destruct (n <? List.length sh)%nat eqn:L.
  - apply Nat.ltb_lt in L. apply nth_error_Some in L.
    destruct (nth_error sh n) as [x|]; [|congruence]. simpl.
    now destruct (x >? -1)%Z.
  - apply Nat.ltb_ge in L. apply nth_error_None in L. now rewrite L.
Qed.

Lemma interpret_nil (fuel : nat) (s p : string) :
  Interp.interpret_inline_exp E fuel s p [] = Raise IndexError.
Proof. reflexivity. Qed.

Lemma interpret_eq (fuel : nat) (s p : string) (sh : list Z) :
  sh <> [] ->
  Interp.interpret_inline_exp E fuel s p sh =
  Interp.loop E fuel s p sh (Interp.index_at 0 sh) (Interp.index_at 1 sh)
    (Interp.index_at 2 sh) (Path.basename p) (Path.dirname p) s.
Proof.
  intros H. unfold Interp.interpret_inline_exp.
  now rewrite (bind_i_eq sh H), !bind_nested_eq.
Qed.

Section Loop.

Variables (s p : string) (sh : list Z) (i j k : option Z).

Let bn := Path.basename p.
Let dn := Path.dirname p.
Let frame (result : string) (m : Re.match_object) : Interp.locals :=
  Interp.Locals s p sh result i j k bn dn m.

Lemma loop_done (fuel : nat) (result : string) :
  Re.search result = None ->
  Interp.loop E (S fuel) s p sh i j k bn dn result = Ok result.
Proof. intros H. simpl. now rewrite H. Qed.

Lemma loop_turn (fuel : nat) (result : string) (m : Re.match_object) :
  Re.search result = Some m ->
  Interp.loop E (S fuel) s p sh i j k bn dn result =
  obind (Interp.eval E (frame result m) (Re.group1 m))
        (fun v => Interp.loop E fuel s p sh i j k bn dn
                    (Str.replace1 result (Re.group0 m) (Py.str v))).
Proof. intros H. simpl. now rewrite H. Qed.

(** A string the loop returns has no placeholder left. *)
Lemma loop_resolved (fuel : nat) : forall result r,
  Interp.loop E fuel s p sh i j k bn dn result = Ok r -> Re.search r = None.
Proof.
  induction fuel as [|fuel IH]; intros result r H; [discriminate|].
  destruct (Re.search result) as [m|] eqn:M.
  - rewrite (loop_turn _ _ _ M) in H.
    destruct (Interp.eval E (frame result m) (Re.group1 m)); try discriminate.
    simpl in H. eapply IH, H.
  - rewrite (loop_done _ _ M) in H. now injection H as <-.
Qed.

(** More fuel does not change an outcome that was reached. *)
Lemma loop_more_fuel (fuel : nat) : forall fuel' result,
  fuel <= fuel' ->
  Interp.loop E fuel s p sh i j k bn dn result <> OutOfFuel ->
  Interp.loop E fuel' s p sh i j k bn dn result =
  Interp.loop E fuel s p sh i j k bn dn result.
Proof.
  induction fuel as [|fuel IH]; intros fuel' result L H; [now elim H|].
  destruct fuel' as [|fuel']; [lia|].
  destruct (Re.search result) as [m|] eqn:M.
  - rewrite (loop_turn fuel _ _ M) in H.
    rewrite (loop_turn fuel' _ _ M), (loop_turn fuel _ _ M).
    destruct (Interp.eval E (frame result m) (Re.group1 m)); cbn [obind] in *;
      try reflexivity.
    apply IH; [lia | exact H].
  - now rewrite !(loop_done _ _ M).
Qed.

(** One turn removes a placeholder and puts the value in its place. *)
Lemma turn_count (result : string) (m : Re.match_object) (v : string) :
  Re.search result = Some m ->
  Str.count Str.dollar v = 0 ->
  Str.count Str.dollar (Str.replace1 result (Re.group0 m) v)
  < Str.count Str.dollar result.
Proof.
  intros M V. apply search_from_occurs in M as (G & pre & suf & ->).
  destruct (replace1_occurs (Re.group0 m) v pre suf) as (pre' & suf' & E1 & E2).
  rewrite E2, E1, !count_append, V, G.
  pose proof (count_placeholder (Re.group1 m)). lia.
Qed.

(** When no substituted value has a [$], the loop ends within as many
    turns as the string has [$] characters. *)
Lemma loop_terminates (fuel : nat) : forall result,
  (forall r m v, Interp.reaches E s p sh i j k r ->
     Re.search r = Some m ->
     Interp.eval E (frame r m) (Re.group1 m) = Ok v ->
     Str.count Str.dollar (Py.str v) = 0) ->
  Interp.reaches E s p sh i j k result ->
  Str.count Str.dollar result < fuel ->
  Interp.loop E fuel s p sh i j k bn dn result <> OutOfFuel.
Proof.
  induction fuel as [|fuel IH]; intros result Clean R L; [lia|].
  destruct (Re.search result) as [m|] eqn:M.
  - rewrite (loop_turn _ _ _ M).
    destruct (Interp.eval E (frame result m) (Re.group1 m)) as [v| |] eqn:V;
      simpl; try discriminate.
    + apply IH; [exact Clean | eapply Interp.reaches_next; eassumption |].
      pose proof (turn_count _ _ _ M (Clean _ _ _ R M V)). lia.
    + exfalso.
      unfold Interp.eval in V. destruct (Py.is_identifier (Re.group1 m)).
      * destruct (Interp.lookup E (frame result m) (Re.group1 m)); discriminate.
      * destruct (Py.eval_other E (Re.group1 m) (Interp.lookup E (frame result m)));
          discriminate.
  - now rewrite (loop_done _ _ M).
Qed.

End Loop.

End InterpFacts.

(** ** The pattern finds a placeholder exactly when there is one *)

Lemma lazy_body_finds (e suf : string) :
  Str.mem Str.newline e = false ->
  Re.lazy_body (e ++ String Str.rbrace suf) <> None.
Proof.
  induction e as [|c e IH]; intros H; simpl; [discriminate|].
  simpl in H. apply orb_false_iff in H as [Hc He].
  destruct (Ascii.eqb c Str.rbrace); [discriminate|]. rewrite Hc.
  specialize (IH He). destruct (Re.lazy_body (e ++ String Str.rbrace suf));
    [discriminate | congruence].
Qed.

Lemma search_from_finds (pre e suf : string) :
  Str.mem Str.newline e = false ->
  forall pos, Re.search_from pos (pre ++ Re.placeholder e ++ suf) <> None.
Proof.
  intros H. induction pre as [|c pre IH]; intros pos.
  - cbn [append]. unfold Re.placeholder. cbn [append Re.search_from Re.match_here].
    change (Ascii.eqb Str.dollar Str.dollar && Ascii.eqb Str.lbrace Str.lbrace)
      with true. cbn iota.
    rewrite append_assoc. cbn [append].
    pose proof (lazy_body_finds e suf H) as F.
    destruct (Re.lazy_body (e ++ String Str.rbrace suf)); [discriminate | congruence].
  - cbn [append Re.search_from].
    destruct (Re.match_here (String c (pre ++ Re.placeholder e ++ suf)));
      [discriminate | apply IH].
Qed.

Lemma search_from_group1 (s : string) : forall pos m,
  Re.search_from pos s = Some m -> Str.mem Str.newline (Re.group1 m) = false.
Proof.
  induction s as [|c r IH]; intros pos m H; [discriminate|].
  cbn [Re.search_from] in H.
  destruct (Re.match_here (String c r)) as [e|] eqn:M.
  - injection H as <-. simpl.
    destruct r as [|d r']; simpl in M; [discriminate|].
    destruct (Ascii.eqb c Str.dollar && Ascii.eqb d Str.lbrace); [|discriminate].
    now apply lazy_body_split in M as (suf & _ & _ & N).
  - eapply IH, H.
Qed.

Lemma search_none_iff (s : string) :
  Re.search s = None <-> ~ Re.has_placeholder s.
Proof.
  split.
  - intros H (pre & e & suf & -> & N).
    now apply (search_from_finds pre e suf N 0).
  - intros H. destruct (Re.search s) as [m|] eqn:M; [|reflexivity].
    exfalso. apply H.
    pose proof (search_from_group1 _ _ _ M) as N.
    apply search_from_occurs in M as (G & pre & suf & ->).
    exists pre, (Re.group1 m), suf. now rewrite <- G.
Qed.

(** ** Paths *)

Lemma split_last_spec (p : string) :
  p = fst (Path.split_last p) ++ snd (Path.split_last p) /\
  Str.mem Str.slash (snd (Path.split_last p)) = false /\
  (fst (Path.split_last p) = "" \/
   Str.endswith_char (fst (Path.split_last p)) Str.slash = true).
Proof.
  induction p as [|c r IH]; [simpl; auto|].
  cbn [Path.split_last]. destruct (Path.split_last r) as [h t].
  cbn [fst snd] in IH. destruct IH as (Er & Ht & Hh).
  destruct h as [|a h].
  - cbn [append] in Er. subst t.
    destruct (Ascii.eqb c Str.slash) eqn:C; cbn [fst snd].
    + apply Ascii.eqb_eq in C. subst c. repeat split; auto.
    + repeat split; auto. simpl. now rewrite C.
  - cbn [fst snd]. repeat split; auto.
    + cbn [append]. now rewrite Er at 1.
    + right. destruct Hh as [Hh|Hh]; [discriminate | exact Hh].
Qed.

(** ** Names in and out of the scope of [eval] *)

Lemma lookup_outer (E : Py.env) (L : Interp.locals) (name : string) :
  ~ In name Interp.local_names ->
  Interp.lookup E L name = Py.outer E name.
Proof.
  intros H. unfold Interp.lookup.
  repeat match goal with
         | |- context [String.eqb name ?x] =>
             destruct (String.eqb_spec name x) as [->|_];
             [exfalso; apply H; simpl; tauto|]
         end.
  reflexivity.
Qed.

Lemma eval_bound_name (E : Py.env) (L : Interp.locals) (name : string)
    (v : Py.value) :
  Py.is_identifier name = true ->
  Interp.lookup E L name = Some v ->
  Interp.eval E L name = Ok v.
Proof. intros I V. unfold Interp.eval. now rewrite I, V. Qed.

Lemma replace1_whole (s new : string) : Str.replace1 s s new = new.
Proof.
  rewrite replace1_eq. unfold Str.startswith.
  assert (P : String.prefix s s = true).
  { rewrite <- (append_empty_r s) at 2. apply prefix_append. }
  assert (D : Str.drop (String.length s) s = "").
  { rewrite <- (append_empty_r s) at 2. apply drop_append. }
  now rewrite P, D, append_empty_r.
Qed.

Ltac interp_turn :=
  erewrite loop_turn by reflexivity; cbn [Re.group0 Re.group1].

Ltac interp_name :=
  interp_turn; erewrite eval_bound_name by reflexivity;
  cbn [obind Py.str Interp.int_or_none];
  change (Re.placeholder ?e) with
    (String Str.dollar (String Str.lbrace (e ++ String Str.rbrace EmptyString)));
  cbn [append]; rewrite replace1_whole.

(** C1 (as amended).  When position 0 of the scatter index is -1 the name
    [i] is bound to [None], and interpreting ["${i}"] returns the text
    ["None"]; no exception is raised.  The same holds for ["${j}"] when
    position 1 is absent or -1 and for ["${k}"] when position 2 is absent or
    -1, for a scatter index that is not empty. *)
Theorem unscattered_index_is_None (E : Py.env) (n : nat) (p : string)
    (sh : list Z) :
  sh <> [] ->
  (nth_error sh 0 = Some (-1)%Z ->
   Interp.interpret_inline_exp E (S (S n)) "${i}" p sh = Ok "None") /\
  (nth_error sh 1 = None \/ nth_error sh 1 = Some (-1)%Z ->
   Interp.interpret_inline_exp E (S (S n)) "${j}" p sh = Ok "None") /\
  (nth_error sh 2 = None \/ nth_error sh 2 = Some (-1)%Z ->
   Interp.interpret_inline_exp E (S (S n)) "${k}" p sh = Ok "None").
Proof.
  intros NE.
  assert (A : forall pos, nth_error sh pos = None \/ nth_error sh pos = Some (-1)%Z ->
                          Interp.index_at pos sh = None).
  { intros pos [H|H]; unfold Interp.index_at; now rewrite H. }
  repeat split; intros H; rewrite (interpret_eq E _ _ _ sh NE).
  - rewrite (A 0%nat (or_intror H)). interp_turn. reflexivity.
  - rewrite (A 1%nat H). interp_turn. reflexivity.
  - rewrite (A 2%nat H). interp_turn. reflexivity.
Qed.

Lemma unscattered_index_is_None_witness :
  [(-1)%Z; (-1)%Z; (-1)%Z] <> [] /\
  Interp.interpret_inline_exp Interp.bare_env 2 "${i}" "/work/xyz.bam"
    [(-1)%Z; (-1)%Z; (-1)%Z] = Ok "None".
Proof.
  split; [discriminate|].
  apply (proj1 (unscattered_index_is_None Interp.bare_env 0 "/work/xyz.bam"
                  [(-1)%Z; (-1)%Z; (-1)%Z] ltac:(discriminate))).
  reflexivity.
Defined.

(** C1 (as stated) fails: with the scatter index (-1, -1, -1), and with
    (0,) for [j] and [k], the interpreter returns ["None"] and raises
    nothing. *)
Lemma unbound_index_does_not_raise :
  Interp.interpret_inline_exp Interp.bare_env 2 "${i}" "/work/xyz.bam"
    [(-1)%Z; (-1)%Z; (-1)%Z] = Ok "None" /\
  Interp.interpret_inline_exp Interp.bare_env 2 "${j}" "/work/xyz.bam"
    [0%Z] = Ok "None" /\
  Interp.interpret_inline_exp Interp.bare_env 2 "${k}" "/work/xyz.bam"
    [0%Z; (-1)%Z; (-1)%Z] = Ok "None".
Proof. repeat split; reflexivity. Qed.

(** A name of the function's own is always bound. *)
Lemma lookup_local (E : Py.env) (L : Interp.locals) (name : string) :
  In name Interp.local_names -> exists v, Interp.lookup E L name = Some v.
Proof.
  intros H. simpl in H.
  repeat destruct H as [H|H]; try (subst name; eexists; reflexivity).
  destruct H.
Qed.

(** The loop, started on the template, goes on from a value of [result]
    it comes to. *)
Lemma comes_to_loop (E : Py.env) (s p : string) (sh : list Z)
    (i j k : option Z) (turns : nat) (r : string) :
  Interp.comes_to E s p sh i j k turns r ->
  forall fuel,
    Interp.loop E (turns + fuel) s p sh i j k (Path.basename p)
      (Path.dirname p) s =
    Interp.loop E fuel s p sh i j k (Path.basename p) (Path.dirname p) r.
Proof.
  induction 1 as [|turns result m v R IH M V]; intros fuel; [reflexivity|].
  replace (S turns + fuel) with (turns + S fuel) by lia.
  rewrite IH, (loop_turn E _ _ _ _ _ _ _ _ _ M), V. reflexivity.
Qed.

(** C2 (as amended).  Take any placeholder the loop comes to: the leftmost
    one of the template, or of the result after some turns.  When its
    expression is an identifier bound in none of the scopes [eval] consults
    (the function's local variables, the module's globals and the builtins),
    the interpreter raises [NameError] for that name.  When the identifier
    has a value in one of those scopes, whether it is in the table of
    supported names or not, the loop puts the text of the value in the place
    of the placeholder and goes on; and a local variable or a name bound
    outside the function always has a value. *)
Theorem name_lookup_decides (E : Py.env) (s p : string) (sh : list Z)
    (turns : nat) (r : string) (m : Re.match_object) :
  sh <> [] ->
  Interp.comes_to E s p sh (Interp.index_at 0 sh) (Interp.index_at 1 sh)
    (Interp.index_at 2 sh) turns r ->
  Re.search r = Some m ->
  Py.is_identifier (Re.group1 m) = true ->
  (~ In (Re.group1 m) Interp.local_names ->
   Py.outer E (Re.group1 m) = None ->
   forall n,
     Interp.interpret_inline_exp E (turns + S n) s p sh
     = Raise (NameError (Re.group1 m))) /\
  (forall v,
     Interp.lookup E
       (Interp.Locals s p sh r (Interp.index_at 0 sh) (Interp.index_at 1 sh)
          (Interp.index_at 2 sh) (Path.basename p) (Path.dirname p) m)
       (Re.group1 m) = Some v ->
     Interp.comes_to E s p sh (Interp.index_at 0 sh) (Interp.index_at 1 sh)
       (Interp.index_at 2 sh) (S turns)
       (Str.replace1 r (Re.group0 m) (Py.str v)) /\
     forall n,
       Interp.interpret_inline_exp E (turns + S n) s p sh =
       Interp.loop E n s p sh (Interp.index_at 0 sh) (Interp.index_at 1 sh)
         (Interp.index_at 2 sh) (Path.basename p) (Path.dirname p)
         (Str.replace1 r (Re.group0 m) (Py.str v))) /\
  (In (Re.group1 m) Interp.local_names \/ Py.outer E (Re.group1 m) <> None ->
   exists v,
     Interp.lookup E
       (Interp.Locals s p sh r (Interp.index_at 0 sh) (Interp.index_at 1 sh)
          (Interp.index_at 2 sh) (Path.basename p) (Path.dirname p) m)
       (Re.group1 m) = Some v).
Proof.
  intros NE R M I. split; [|split].
  - intros L O n.
    rewrite (interpret_eq E _ _ _ sh NE), (comes_to_loop E s p sh _ _ _ turns r R),
      (loop_turn E _ _ _ _ _ _ _ _ _ M).
    unfold Interp.eval. now rewrite I, lookup_outer, O.
  - intros v V.
    pose proof (eval_bound_name E _ _ v I V) as EV. split.
    + exact (Interp.comes_to_next R M EV).
    + intros n.
      rewrite (interpret_eq E _ _ _ sh NE), (comes_to_loop E s p sh _ _ _ turns r R),
        (loop_turn E _ _ _ _ _ _ _ _ _ M), EV. reflexivity.
  - intros [L|O]; [now apply lookup_local|].
    destruct (in_dec string_dec (Re.group1 m) Interp.local_names) as [L|L];
      [now apply lookup_local|].
    rewrite (lookup_outer E _ _ L).
    destruct (Py.outer E (Re.group1 m)) as [v|]; [now exists v | now elim O].
Qed.

Lemma name_lookup_decides_witness :
  [0%Z] <> [] /\
  Interp.comes_to Interp.module_env "rep${i}/${nope}" "/work/xyz.bam" [0%Z]
    (Interp.index_at 0 [0%Z]) (Interp.index_at 1 [0%Z])
    (Interp.index_at 2 [0%Z]) 1 "rep0/${nope}" /\
  Re.search "rep0/${nope}" = Some (Re.Match 5 "${nope}" "nope") /\
  Py.is_identifier "nope" = true /\
  Py.outer Interp.module_env "nope" = None /\
  Interp.interpret_inline_exp Interp.module_env 2 "rep${i}/${nope}"
    "/work/xyz.bam" [0%Z] = Raise (NameError "nope").
Proof.
  assert (R : Interp.comes_to Interp.module_env "rep${i}/${nope}"
                "/work/xyz.bam" [0%Z] (Interp.index_at 0 [0%Z])
                (Interp.index_at 1 [0%Z]) (Interp.index_at 2 [0%Z]) 1
                "rep0/${nope}").
  { exact (Interp.comes_to_next (E := Interp.module_env)
             (m := Re.Match 3 "${i}" "i") (v := Py.VInt 0)
             (Interp.comes_to_start Interp.module_env "rep${i}/${nope}"
                "/work/xyz.bam" [0%Z] (Interp.index_at 0 [0%Z])
                (Interp.index_at 1 [0%Z]) (Interp.index_at 2 [0%Z]))
             eq_refl eq_refl). }
  split; [discriminate|]. split; [exact R|].
  split; [reflexivity|]. split; [reflexivity|]. split; [reflexivity|].
  refine (proj1 (name_lookup_decides Interp.module_env "rep${i}/${nope}"
                   "/work/xyz.bam" [0%Z] 1 "rep0/${nope}"
                   (Re.Match 5 "${nope}" "nope") _ R eq_refl eq_refl) _ eq_refl 0).
  - discriminate.
  - simpl. intros H. repeat destruct H as [H|H]; try discriminate H. exact H.
Defined.

Lemma loop_on_own_template (E : Py.env) (p : string) (sh : list Z)
    (i j k : option Z) (fuel : nat) :
  Interp.loop E fuel "${s}" p sh i j k (Path.basename p) (Path.dirname p) "${s}"
  = OutOfFuel.
Proof.
  induction fuel as [|fuel IH]; [reflexivity|].
  interp_turn. exact IH.
Qed.

(** C2 (as stated) fails: [s] and [os] are outside the table of seven names
    and are bound where [eval] runs, [s] as the function's own parameter and
    [os] by the module's [import os].  ["${s}"] is replaced by the template
    again and again and never raises; ["${os}"] is replaced by the text of
    the module object, whatever that text is, and returned when the text
    has no placeholder. *)
Lemma bound_name_outside_table_is_substituted :
  ~ In "s" Interp.supported /\ ~ In "os" Interp.supported /\
  (forall fuel e,
     Interp.interpret_inline_exp Interp.bare_env fuel "${s}" "/work/xyz.bam"
       [0%Z] <> Raise e) /\
  (forall (E : Py.env) (text : string),
     Py.outer E "os" = Some (Py.VObject text) ->
     Re.search text = None ->
     Interp.interpret_inline_exp E 2 "${os}" "/work/xyz.bam" [0%Z] = Ok text).
Proof.
  assert (N : forall x, In x Interp.supported ->
                        x <> "s" /\ x <> "os").
  { intros x H. simpl in H.
    repeat destruct H as [H|H]; try (subst x; split; discriminate).
    destruct H. }
  split; [intros H; now destruct (N _ H)|].
  split; [intros H; now destruct (N _ H)|].
  split.
  - intros fuel e. rewrite interpret_eq by discriminate.
    now rewrite loop_on_own_template.
  - intros E text O T. rewrite interpret_eq by discriminate.
    erewrite loop_turn by reflexivity. cbn [Re.group0 Re.group1].
    erewrite eval_bound_name; [|reflexivity|exact O].
    cbn [obind Py.str].
    change (Re.placeholder ?e) with
      (String Str.dollar (String Str.lbrace (e ++ String Str.rbrace EmptyString)));
    cbn [append]. rewrite replace1_whole.
    now apply loop_done.
Qed.

Lemma loop_on_own_path (E : Py.env) (sh : list Z) (i j k : option Z)
    (fuel : nat) :
  Interp.loop E fuel "${full_path}" "${full_path}" sh i j k
    (Path.basename "${full_path}") (Path.dirname "${full_path}") "${full_path}"
  = OutOfFuel.
Proof.
  induction fuel as [|fuel IH]; [reflexivity|].
  interp_turn. exact IH.
Qed.

(** C3 (as stated) fails: for the template ["${full_path}"] and the file
    location ["${full_path}"] the substituted value is the placeholder
    again, a turn of the loop leaves the result as it was, and the loop does
    not end, whatever the fuel. *)
Lemma interpretation_can_run_forever :
  Str.replace1 "${full_path}" "${full_path}" (Py.str (Py.VStr "${full_path}"))
  = "${full_path}" /\
  (forall fuel,
     Interp.interpret_inline_exp Interp.bare_env fuel "${full_path}"
       "${full_path}" [0%Z] = OutOfFuel).
Proof.
  split; [reflexivity|].
  intros fuel. rewrite interpret_eq by discriminate. apply loop_on_own_path.
Qed.

(** C3 (as amended).  A string the interpreter returns has no placeholder
    left, also when substituted values brought new ones, since the loop
    searches again after every substitution.  The loop ends, by returning or
    by raising, within as many substitutions as the template has [$]
    characters when no value it substitutes has a [$]; an outcome reached
    with some fuel is the outcome with any more fuel. *)
Theorem interpretation_resolves (E : Py.env) (s p : string) (sh : list Z) :
  (forall fuel r,
     Interp.interpret_inline_exp E fuel s p sh = Ok r ->
     ~ Re.has_placeholder r) /\
  (sh <> [] ->
   (forall r m v,
      Interp.reaches E s p sh (Interp.index_at 0 sh) (Interp.index_at 1 sh)
        (Interp.index_at 2 sh) r ->
      Re.search r = Some m ->
      Interp.eval E
        (Interp.Locals s p sh r (Interp.index_at 0 sh) (Interp.index_at 1 sh)
           (Interp.index_at 2 sh) (Path.basename p) (Path.dirname p) m)
        (Re.group1 m) = Ok v ->
      Str.count Str.dollar (Py.str v) = 0) ->
   Interp.interpret_inline_exp E (S (Str.count Str.dollar s)) s p sh
   <> OutOfFuel /\
   forall fuel, S (Str.count Str.dollar s) <= fuel ->
     Interp.interpret_inline_exp E fuel s p sh =
     Interp.interpret_inline_exp E (S (Str.count Str.dollar s)) s p sh).
Proof.
  split.
  - intros fuel r H. apply search_none_iff.
    destruct sh as [|x sh']; [discriminate|].
    rewrite interpret_eq in H by discriminate.
    eapply loop_resolved, H.
  - intros NE Clean.
    assert (T : Interp.interpret_inline_exp E (S (Str.count Str.dollar s)) s p sh
                <> OutOfFuel).
    { rewrite (interpret_eq E _ _ _ sh NE).
      apply loop_terminates; [exact Clean | constructor | lia]. }
    split; [exact T|].
    intros fuel L. rewrite !(interpret_eq E _ _ _ sh NE) in *.
    now apply loop_more_fuel.
Qed.

Lemma interpretation_resolves_witness :
  Interp.interpret_inline_exp Interp.bare_env 3 "rep${i}/${basename}"
    "/work/xyz.bam" [0%Z] = Ok "rep0/xyz.bam" /\
  ~ Re.has_placeholder "rep0/xyz.bam" /\
  Interp.interpret_inline_exp Interp.bare_env 3 "rep${i}/${basename}"
    "/work/xyz.bam" [0%Z] <> OutOfFuel.
Proof.
  split; [reflexivity|].
  split.
  - apply (proj1 (interpretation_resolves Interp.bare_env "rep${i}/${basename}"
                    "/work/xyz.bam" [0%Z]) 3).
    reflexivity.
  - apply (proj2 (interpretation_resolves Interp.bare_env "rep${i}/${basename}"
                    "/work/xyz.bam" [0%Z])).
    + discriminate.
    + intros r m v R.
      assert (Cases : r = "rep${i}/${basename}" \/ r = "rep0/${basename}" \/
                      r = "rep0/xyz.bam").
      { induction R as [|r0 m0 v0 R0 IH M0 V0]; [now left|].
        destruct IH as [->|[->| ->]].
        - injection M0 as <-. injection V0 as <-. right. now left.
        - injection M0 as <-. injection V0 as <-. right. now right.
        - discriminate M0. }
      destruct Cases as [->|[->| ->]]; intros M V.
      * injection M as <-. injection V as <-. reflexivity.
      * injection M as <-. injection V as <-. reflexivity.
      * discriminate M.
Defined.

(** C8 (as stated) fails: the final path segment of ["/work/${i}"] is
    ["${i}"], and interpreting ["${basename}"] returns ["0"], because the
    substituted segment is searched again. *)
Lemma basename_is_interpreted_again :
  Path.basename "/work/${i}" = "${i}" /\
  Interp.interpret_inline_exp Interp.bare_env 3 "${basename}" "/work/${i}"
    [0%Z] = Ok "0".
Proof. split; reflexivity. Qed.

(** C8 (as amended).  For a scatter index whose position 0 is not negative:
    ["${i}"] yields the decimal text of position 0; ["${basename}"] yields
    the final path segment of the location, ["${full_path}"] the location
    and ["${dirname}"] what [os.path.dirname] gives for it, each provided
    that the substituted text has no placeholder of its own.  The final
    segment is what follows the last [/] of the location. *)
Theorem supported_names_are_substituted (E : Py.env) (n : nat) (p : string)
    (sh : list Z) (x : Z) :
  nth_error sh 0 = Some x ->
  (0 <= x)%Z ->
  Interp.interpret_inline_exp E (S (S n)) "${i}" p sh = Ok (Py.str_of_int x) /\
  (Re.search (Path.basename p) = None ->
   Interp.interpret_inline_exp E (S (S n)) "${basename}" p sh
   = Ok (Path.basename p)) /\
  (Re.search p = None ->
   Interp.interpret_inline_exp E (S (S n)) "${full_path}" p sh = Ok p) /\
  (Re.search (Path.dirname p) = None ->
   Interp.interpret_inline_exp E (S (S n)) "${dirname}" p sh
   = Ok (Path.dirname p)) /\
  (exists head,
     p = head ++ Path.basename p /\
     Str.mem Str.slash (Path.basename p) = false /\
     (head = "" \/ Str.endswith_char head Str.slash = true)).
Proof.
  intros H0 Hx.
  assert (NE : sh <> []) by (destruct sh; [discriminate | congruence]).
  assert (I : Interp.index_at 0 sh = Some x).
  { unfold Interp.index_at. rewrite H0.
    destruct (x >? -1)%Z eqn:G; [reflexivity|]. lia. }
  repeat split; try intros S0; try rewrite (interpret_eq E _ _ _ sh NE).
  - rewrite I. interp_name.
    apply loop_done, search_no_dollar, str_of_int_no_dollar.
  - interp_name. now apply loop_done.
  - interp_name. now apply loop_done.
  - interp_name. now apply loop_done.
  - exists (fst (Path.split_last p)). apply split_last_spec.
Qed.

Lemma supported_names_are_substituted_witness :
  nth_error [0%Z; (-1)%Z; (-1)%Z] 0 = Some 0%Z /\
  Interp.interpret_inline_exp Interp.bare_env 2 "${i}" "/work/xyz.bam"
    [0%Z; (-1)%Z; (-1)%Z] = Ok "0" /\
  Interp.interpret_inline_exp Interp.bare_env 2 "${basename}" "/work/xyz.bam"
    [0%Z; (-1)%Z; (-1)%Z] = Ok "xyz.bam".
Proof.
  split; [reflexivity|].
  pose proof (supported_names_are_substituted Interp.bare_env 0 "/work/xyz.bam"
                [0%Z; (-1)%Z; (-1)%Z] 0%Z eq_refl ltac:(lia)) as (Hi & Hb & _).
  split; [exact Hi | exact (Hb eq_refl)].
Defined.

(** C10, as stated, fails: an expression of the template is evaluated in
    the scope of the tuple and can read it out of range.  With the tuple
    [(0,)], which is not empty, the template [${shard_idx[1]}] raises
    [IndexError]. *)
Lemma evaluated_subscript_is_out_of_range :
  [0%Z] <> [] /\
  Re.search "${shard_idx[1]}" = Some (Re.Match 0 "${shard_idx[1]}" "shard_idx[1]") /\
  Interp.interpret_inline_exp Interp.subscript_env 1 "${shard_idx[1]}"
    "/work/xyz.bam" [0%Z] = Raise IndexError /\
  Interp.interpret_inline_exp Interp.subscript_env 2 "${shard_idx[0]}"
    "/work/xyz.bam" [0%Z] = Ok "0".
Proof. repeat split; try reflexivity. discriminate. Qed.

(** C10, amended.  For a scatter index that is not empty, of any length,
    the three bindings of lines 154-165 read the tuple within its range:
    position 0 exists, positions 1 and 2 are read only when the tuple has
    them, and the interpreter comes to its loop with the three names bound.
    A template without a placeholder is then returned with no further
    access to the tuple.  Position 0 is read without a guard: for the empty
    tuple the interpreter raises [IndexError]. *)
Theorem bindings_stay_within_the_tuple (E : Py.env) (fuel : nat)
    (s p : string) (sh : list Z) :
  sh <> [] ->
  (Interp.bind_i sh = Ok (Interp.index_at 0 sh) /\
   Interp.bind_nested 1 sh = Ok (Interp.index_at 1 sh) /\
   Interp.bind_nested 2 sh = Ok (Interp.index_at 2 sh) /\
   Interp.interpret_inline_exp E fuel s p sh =
   Interp.loop E fuel s p sh (Interp.index_at 0 sh) (Interp.index_at 1 sh)
     (Interp.index_at 2 sh) (Path.basename p) (Path.dirname p) s /\
   (Re.search s = None ->
    Interp.interpret_inline_exp E (S fuel) s p sh = Ok s)) /\
  Interp.interpret_inline_exp E fuel s p [] = Raise IndexError.
Proof.
  intros NE. split; [|reflexivity].
  split; [now apply bind_i_eq|].
  split; [apply bind_nested_eq|].
  split; [apply bind_nested_eq|].
  split; [exact (interpret_eq E fuel s p sh NE)|].
  intros H. rewrite (interpret_eq E (S fuel) s p sh NE).
  now apply loop_done.
Qed.

Lemma bindings_stay_within_the_tuple_witness :
  [7%Z] <> [] /\
  Interp.bind_i [7%Z] = Ok (Some 7%Z) /\
  Interp.bind_nested 1 [7%Z] = Ok None /\
  Interp.bind_nested 2 [7%Z] = Ok None /\
  Interp.interpret_inline_exp Interp.bare_env 1 "align/out.bam" "/work/xyz.bam"
    [7%Z] = Ok "align/out.bam" /\
  Interp.interpret_inline_exp Interp.bare_env 4 "${i}_${j}_${k}" "/work/xyz.bam"
    [] = Raise IndexError.
Proof.
  pose proof (bindings_stay_within_the_tuple Interp.bare_env 0
                "align/out.bam" "/work/xyz.bam" [7%Z] ltac:(discriminate))
    as ((Hi & Hj & Hk & _ & Hs) & _).
  pose proof (bindings_stay_within_the_tuple Interp.bare_env 4
                "${i}_${j}_${k}" "/work/xyz.bam" [7%Z] ltac:(discriminate))
    as (_ & Hnil).
  split; [discriminate|].
  split; [exact Hi|]. split; [exact Hj|]. split; [exact Hk|].
  split; [exact (Hs eq_refl) | exact Hnil].
Defined.

(** ** Computations that make calls *)

Section MonadFacts.

Import Organize.

Lemma bind_ret_l {A B : Type} (a : A) (f : A -> M B) : bind (ret a) f = f a.
Proof. unfold bind, ret. now destruct (f a). Qed.

Lemma bind_ret_r {A : Type} (x : M A) : bind x ret = x.
Proof.
  destruct x as [t [a| |]]; unfold bind, ret; try reflexivity.
  now rewrite app_nil_r.
Qed.

Lemma bind_assoc {A B D : Type} (x : M A) (f : A -> M B) (g : B -> M D) :
  bind (bind x f) g = bind x (fun a => bind (f a) g).
Proof.
  destruct x as [t [a| |]]; unfold bind; try reflexivity.
  destruct (f a) as [t1 [b| |]]; try reflexivity.
  destruct (g b) as [t2 r]. now rewrite app_assoc.
Qed.

Lemma for_each_ext {A : Type} (xs : list A) (f g : A -> M unit) :
  (forall x, In x xs -> f x = g x) -> for_each xs f = for_each xs g.
Proof.
  induction xs as [|x r IH]; intros H; [reflexivity|].
  cbn [for_each]. rewrite (H x (or_introl eq_refl)). f_equal.
  rewrite IH; [reflexivity|]. intros y Hy. apply H. now right.
Qed.

Lemma for_each_app {A : Type} (xs ys : list A) (f : A -> M unit) :
  for_each (xs ++ ys)%list f = bind (for_each xs f) (fun _ => for_each ys f).
Proof.
  induction xs as [|x r IH]; cbn [for_each app].
  - now rewrite bind_ret_l.
  - now rewrite bind_assoc, IH.
Qed.

Lemma for_each_map {A B : Type} (g : A -> B) (xs : list A) (f : B -> M unit) :
  for_each (map g xs) f = for_each xs (fun x => f (g x)).
Proof.
  induction xs as [|x r IH]; cbn [for_each map]; [reflexivity | now rewrite IH].
Qed.

Lemma for_each_flat_map {A B : Type} (g : A -> list B) (xs : list A)
    (f : B -> M unit) :
  for_each (flat_map g xs) f = for_each xs (fun x => for_each (g x) f).
Proof.
  induction xs as [|x r IH]; cbn [for_each flat_map]; [reflexivity|].
  now rewrite for_each_app, IH.
Qed.

(** A [continue] guard in a loop is a filter of the list. *)
Lemma for_each_filter {A : Type} (keep : A -> bool) (xs : list A)
    (f : A -> M unit) :
  for_each (filter keep xs) f =
  for_each xs (fun x => if negb (keep x) then ret tt else f x).
Proof.
  induction xs as [|x r IH]; cbn [for_each filter]; [reflexivity|].
  destruct (keep x); cbn [for_each negb]; rewrite IH; [reflexivity|].
  now rewrite bind_ret_l.
Qed.

(** A loop that completes has made the calls of all its turns, in order,
    and every turn has completed. *)
Lemma for_each_completes {A : Type} (xs : list A) (f : A -> M unit) :
  snd (for_each xs f) = Ok tt ->
  fst (for_each xs f) = flat_map (fun x => fst (f x)) xs /\
  Forall (fun x => snd (f x) = Ok tt) xs.
Proof.
  induction xs as [|x r IH]; simpl; intros H; [split; [reflexivity | constructor]|].
  destruct (f x) as [t [[]| |]] eqn:F; unfold bind in *; simpl in *;
    try discriminate.
  destruct (for_each r f) as [t' o]. simpl in *.
  destruct (IH H) as [-> Hr]. split; [reflexivity|].
  constructor; [now rewrite F | exact Hr].
Qed.

End MonadFacts.

(** ** The matching loops *)

Section OrganizeFacts.

Import Organize.

Variables (E : Py.env) (C : caper) (out_dir : string) (soft_link : bool).
Variable fuel : nat.
Variable node : Type.
Variable nodes : list (node * task).

Lemma organize_task_matches (name out_var_name : string) (ov : out_var)
    (t : task) :
  organize_task E C out_dir soft_link fuel name out_var_name ov t =
  for_each (map (fun f => (ov, t, f)) (matching_files name out_var_name t))
           (organize_match E C out_dir soft_link fuel).
Proof.
  unfold organize_task, matching_files.
  destruct (String.eqb name (task_name t)); cbn [negb]; [|reflexivity].
  rewrite !for_each_map, for_each_filter.
  apply for_each_ext. now intros [k f] _.
Qed.

Lemma organize_out_var_matches (name out_var_name : string) (ov : out_var) :
  organize_out_var E C out_dir soft_link nodes fuel name out_var_name ov =
  for_each (entry_matches nodes name out_var_name ov)
           (organize_match E C out_dir soft_link fuel).
Proof.
  unfold organize_out_var, entry_matches. rewrite for_each_flat_map.
  apply for_each_ext. intros [n t] _. apply organize_task_matches.
Qed.

Lemma organize_entries_matches (d : out_def) :
  for_each d (fun '(name, out_vars) =>
    for_each out_vars (fun '(out_var_name, ov) =>
      organize_out_var E C out_dir soft_link nodes fuel name out_var_name ov)) =
  for_each (matches d nodes) (organize_match E C out_dir soft_link fuel).
Proof.
  unfold matches. rewrite for_each_flat_map.
  apply for_each_ext. intros [name out_vars] _. rewrite for_each_flat_map.
  apply for_each_ext. intros [out_var_name ov] _.
  apply organize_out_var_matches.
Qed.

Lemma organize_output_matches (d : out_def) :
  organize_output E C out_dir soft_link d nodes fuel =
  bind (for_each (matches d nodes) (organize_match E C out_dir soft_link fuel))
       (fun _ => emit SaveToFile).
Proof.
  unfold organize_output. now rewrite organize_entries_matches.
Qed.

(** A run that completes has made the calls of every match, in order, then
    saved the report. *)
Lemma organize_output_completes (d : out_def) :
  snd (organize_output E C out_dir soft_link d nodes fuel) = Ok tt ->
  fst (organize_output E C out_dir soft_link d nodes fuel) =
    (flat_map (fun m => fst (organize_match E C out_dir soft_link fuel m))
              (matches d nodes) ++ [SaveToFile])%list /\
  Forall (fun m => snd (organize_match E C out_dir soft_link fuel m) = Ok tt)
         (matches d nodes).
Proof.
  rewrite organize_output_matches.
  pose proof (for_each_completes (matches d nodes)
                (organize_match E C out_dir soft_link fuel)) as F.
  destruct (for_each (matches d nodes) (organize_match E C out_dir soft_link fuel))
    as [t [[]| |]]; unfold bind, emit; cbn [fst snd] in *; try discriminate.
  intros _. destruct (F eq_refl) as [-> Hall]. now split.
Qed.

End OrganizeFacts.

(** ** The body of the loops *)

Section FileFacts.

Import Organize.

Variables (E : Py.env) (C : caper) (out_dir : string) (soft_link : bool).
Variable fuel : nat.
Variables (ov : out_var) (t : task) (f : string).

Lemma place_file_None :
  path ov = None ->
  place_file E C out_dir soft_link fuel ov t f = ([], Ok f).
Proof. unfold place_file. now intros ->. Qed.

Lemma place_file_Some (p : string) :
  path ov = Some p ->
  place_file E C out_dir soft_link fuel ov t f =
  match Interp.interpret_inline_exp E fuel p f (shard_idx t) with
  | Ok ip => ([Copy f (Path.join out_dir ip) soft_link],
              Ok (copy C f (Path.join out_dir ip) soft_link))
  | Raise e => ([], Raise e)
  | OutOfFuel => ([], OutOfFuel)
  end.
Proof.
  unfold place_file. intros ->.
  now destruct (Interp.interpret_inline_exp E fuel p f (shard_idx t)).
Qed.

(** The calls made for the target are no call or one copy of the file. *)
Lemma place_file_calls (t0 : list call) (o : outcome string) :
  place_file E C out_dir soft_link fuel ov t f = (t0, o) ->
  (t0 = [] /\ forall uri, o <> Ok uri) \/
  (t0 = [] /\ has_path ov = false /\ o = Ok f) \/
  (exists target, t0 = [Copy f target soft_link] /\ has_path ov = true /\
                  o = Ok (copy C f target soft_link)).
Proof.
  unfold has_path. destruct (path ov) as [p|] eqn:P.
  - rewrite (place_file_Some p P).
    destruct (Interp.interpret_inline_exp E fuel p f (shard_idx t)) as [ip|e|];
      intros [= <- <-].
    + right. right. now exists (Path.join out_dir ip).
    + left. split; [reflexivity | discriminate].
    + left. split; [reflexivity | discriminate].
  - rewrite (place_file_None P). intros [= <- <-]. right. now left.
Qed.

Lemma add_table_cases (uri : string) (url : option string) :
  add_table E fuel ov t f uri url =
  match table ov with
  | Some item =>
      match Interp.interpret_inline_exp E fuel item f (shard_idx t) with
      | Ok it => ([AddToFileTable uri url it], Ok tt)
      | Raise e => ([], Raise e)
      | OutOfFuel => ([], OutOfFuel)
      end
  | None => ([], Ok tt)
  end.
Proof.
  unfold add_table. destruct (table ov) as [item|]; [|reflexivity].
  now destruct (Interp.interpret_inline_exp E fuel item f (shard_idx t)).
Qed.

Lemma add_track_cases (url : option string) :
  add_track E fuel ov t f url =
  match ucsc_track ov, url with
  | Some track, Some u =>
      match Interp.interpret_inline_exp E fuel track f (shard_idx t) with
      | Ok it => ([AddToUcscTrack u it], Ok tt)
      | Raise e => ([], Raise e)
      | OutOfFuel => ([], OutOfFuel)
      end
  | _, _ => ([], Ok tt)
  end.
Proof.
  unfold add_track. destruct (ucsc_track ov) as [track|]; [|reflexivity].
  destruct url as [u|]; [|reflexivity].
  now destruct (Interp.interpret_inline_exp E fuel track f (shard_idx t)).
Qed.

(** The calls of the body once the target is known: the URL is asked for,
    then the table entry is added, then the track. *)
Lemma organize_file_calls (t0 : list call) (uri : string) :
  place_file E C out_dir soft_link fuel ov t f = (t0, Ok uri) ->
  organize_file E C out_dir soft_link fuel ov t f =
  ((t0 ++ GetUrl uri :: report_calls E C fuel ov t f uri)%list,
   match snd (add_table E fuel ov t f uri (get_url C uri)) with
   | Ok _ => snd (add_track E fuel ov t f (get_url C uri))
   | Raise e => Raise e
   | OutOfFuel => OutOfFuel
   end).
Proof.
  intros P. unfold organize_file, report_calls. rewrite P. unfold bind, emit.
  cbv beta zeta iota.
  destruct (add_table E fuel ov t f uri (get_url C uri)) as [t1 [[]|e|]];
    destruct (add_track E fuel ov t f (get_url C uri)) as [t2 o2];
    cbn [fst snd app]; rewrite ?app_nil_r; reflexivity.
Qed.

Lemma organize_file_fails (t0 : list call) (o : outcome string) :
  place_file E C out_dir soft_link fuel ov t f = (t0, o) ->
  (forall uri, o <> Ok uri) ->
  snd (organize_file E C out_dir soft_link fuel ov t f) <> Ok tt.
Proof.
  intros P N. unfold organize_file. rewrite P.
  destruct o as [uri| |]; [now elim (N uri) | discriminate | discriminate].
Qed.

End FileFacts.

Section MatchFacts.

Import Organize.

Variables (E : Py.env) (C : caper) (out_dir : string) (soft_link : bool).
Variable fuel : nat.
Variables (ov : out_var) (t : task) (f : string).

Lemma report_calls_no_placement (uri : string) :
  copied (report_calls E C fuel ov t f uri) = [] /\
  located (report_calls E C fuel ov t f uri) = [].
Proof.
  unfold report_calls. rewrite add_table_cases, add_track_cases.
  destruct (table ov) as [item|];
    [destruct (Interp.interpret_inline_exp E fuel item f (shard_idx t))|];
    (destruct (ucsc_track ov) as [track|];
     [destruct (get_url C uri);
      [destruct (Interp.interpret_inline_exp E fuel track f (shard_idx t))|]|]);
    split; reflexivity.
Qed.

(** C4.  When the output variable has a [path], the target asked of the
    copy is the interpreter's result for the path template, for the matched
    file and the node's scatter index, joined onto the output directory with
    [os.path.join]; the copy is the first call made for the match, and the
    only copy.  When it has no [path], no copy is asked for and the target
    URI is the location of the matched file, unchanged. *)
Theorem destination_candidate :
  (path ov = None ->
   place_file E C out_dir soft_link fuel ov t f = ([], Ok f) /\
   exists rest,
     fst (organize_file E C out_dir soft_link fuel ov t f) = GetUrl f :: rest /\
     copied rest = [] /\ located rest = []) /\
  (forall p ip,
     path ov = Some p ->
     Interp.interpret_inline_exp E fuel p f (shard_idx t) = Ok ip ->
     place_file E C out_dir soft_link fuel ov t f =
       ([Copy f (Path.join out_dir ip) soft_link],
        Ok (copy C f (Path.join out_dir ip) soft_link)) /\
     exists rest,
       fst (organize_file E C out_dir soft_link fuel ov t f) =
         Copy f (Path.join out_dir ip) soft_link
         :: GetUrl (copy C f (Path.join out_dir ip) soft_link) :: rest /\
       copied rest = [] /\ located rest = []).
Proof.
  split.
  - intros P. pose proof (place_file_None E C out_dir soft_link fuel ov t f P) as PF.
    split; [exact PF|]. exists (report_calls E C fuel ov t f f).
    rewrite (organize_file_calls E C out_dir soft_link fuel ov t f [] f PF).
    split; [reflexivity | apply report_calls_no_placement].
  - intros p ip P I.
    pose proof (place_file_Some E C out_dir soft_link fuel ov t f p P) as PF.
    rewrite I in PF. split; [exact PF|].
    exists (report_calls E C fuel ov t f (copy C f (Path.join out_dir ip) soft_link)).
    rewrite (organize_file_calls E C out_dir soft_link fuel ov t f _ _ PF).
    split; [reflexivity | apply report_calls_no_placement].
Qed.


End MatchFacts.

Lemma destination_candidate_witness :
  Interp.interpret_inline_exp Interp.bare_env 3 "align/rep${i}/${basename}"
    "/work/xyz.bam" [0%Z; (-1)%Z; (-1)%Z] = Ok "align/rep0/xyz.bam" /\
  Organize.place_file Interp.bare_env Organize.local_caper "/out" true 3
    (Organize.OutVar (Some "align/rep${i}/${basename}") (Some "BAM rep${i}") None)
    (Organize.Task "align" [("bam", "/work/xyz.bam")] [0%Z; (-1)%Z; (-1)%Z])
    "/work/xyz.bam"
  = ([Organize.Copy "/work/xyz.bam" "/out/align/rep0/xyz.bam" true],
     Ok "/out/align/rep0/xyz.bam").
Proof.
  split; [reflexivity|].
  apply (proj2 (destination_candidate Interp.bare_env Organize.local_caper
                  "/out" true 3
                  (Organize.OutVar (Some "align/rep${i}/${basename}")
                                   (Some "BAM rep${i}") None)
                  (Organize.Task "align" [("bam", "/work/xyz.bam")]
                                 [0%Z; (-1)%Z; (-1)%Z])
                  "/work/xyz.bam")
               "align/rep${i}/${basename}" "align/rep0/xyz.bam"
               eq_refl eq_refl).
Defined.


(** ** Counting the placements *)

Section PlacementFacts.

Import Organize.

Variables (E : Py.env) (C : caper) (out_dir : string) (soft_link : bool).
Variable fuel : nat.
Variable node : Type.
Variable nodes : list (node * task).

Lemma copied_app (a b : list call) : copied (a ++ b) = (copied a ++ copied b)%list.
Proof. apply flat_map_app. Qed.

Lemma located_app (a b : list call) :
  located (a ++ b) = (located a ++ located b)%list.
Proof. apply flat_map_app. Qed.

(** A match whose body completes has one target URI, and one copy when the
    output variable has a [path], none when it has not. *)
Lemma organize_match_places (m : out_var * task * string) :
  snd (organize_match E C out_dir soft_link fuel m) = Ok tt ->
  List.length (located (fst (organize_match E C out_dir soft_link fuel m))) = 1 /\
  copied (fst (organize_match E C out_dir soft_link fuel m)) =
  if has_path (fst (fst m)) then [snd m] else [].
Proof.
  destruct m as [[ov t] f]. cbn [organize_match fst snd]. intros Done.
  destruct (place_file E C out_dir soft_link fuel ov t f) as [t0 o] eqn:PF.
  destruct (place_file_calls E C out_dir soft_link fuel ov t f t0 o PF)
    as [[-> N]|[(-> & HP & ->)|(target & -> & HP & ->)]].
  - now elim (organize_file_fails E C out_dir soft_link fuel ov t f [] o PF N).
  - rewrite (organize_file_calls E C out_dir soft_link fuel ov t f _ _ PF).
    cbn [fst app]. rewrite HP.
    destruct (report_calls_no_placement E C fuel ov t f f) as [Hc Hl].
    change (GetUrl f :: report_calls E C fuel ov t f f)
      with ([GetUrl f] ++ report_calls E C fuel ov t f f)%list.
    now rewrite copied_app, located_app, Hc, Hl.
  - rewrite (organize_file_calls E C out_dir soft_link fuel ov t f _ _ PF).
    cbn [fst]. rewrite HP.
    destruct (report_calls_no_placement E C fuel ov t f
                (copy C f target soft_link)) as [Hc Hl].
    change ([Copy f target soft_link] ++
            GetUrl (copy C f target soft_link)
            :: report_calls E C fuel ov t f (copy C f target soft_link))%list
      with ([Copy f target soft_link; GetUrl (copy C f target soft_link)] ++
            report_calls E C fuel ov t f (copy C f target soft_link))%list.
    now rewrite copied_app, located_app, Hc, Hl.
Qed.

Lemma matches_place (ms : list (out_var * task * string)) :
  Forall (fun m => snd (organize_match E C out_dir soft_link fuel m) = Ok tt) ms ->
  List.length
    (located (flat_map (fun m => fst (organize_match E C out_dir soft_link fuel m))
                       ms)) = List.length ms /\
  copied (flat_map (fun m => fst (organize_match E C out_dir soft_link fuel m)) ms)
  = map snd (filter (fun m => has_path (fst (fst m))) ms).
Proof.
  induction 1 as [|m ms Hm _ [IHl IHc]]; [split; reflexivity|].
  destruct (organize_match_places m Hm) as [Hl Hc].
  cbn [flat_map filter]. rewrite located_app, copied_app, length_app, Hl, Hc, IHl, IHc.
  split; [reflexivity|]. now destruct (has_path (fst (fst m))).
Qed.

(** C7 (as amended).  In a run that completes, one target URI is computed
    for every match, and the copies asked for are those of the matches whose
    output variable has a [path], one for each, in the order of the matches:
    a file that matches twice is copied twice, and a match whose output
    variable has no [path] is not copied at all. *)
Theorem one_placement_per_match_with_path (d : out_def) :
  snd (organize_output E C out_dir soft_link d nodes fuel) = Ok tt ->
  List.length (located (fst (organize_output E C out_dir soft_link d nodes fuel)))
  = List.length (matches d nodes) /\
  copied (fst (organize_output E C out_dir soft_link d nodes fuel))
  = map snd (filter (fun m => has_path (fst (fst m))) (matches d nodes)).
Proof.
  intros Done.
  destruct (organize_output_completes E C out_dir soft_link fuel node nodes d Done)
    as [-> Hall].
  destruct (matches_place _ Hall) as [Hl Hc].
  rewrite located_app, copied_app, length_app, Hl, Hc.
  cbn. rewrite app_nil_r. split; [lia | reflexivity].
Qed.

(** The calls of a match whose body completes are the ones the
    specification lists for it. *)
Lemma organize_match_calls (m : out_var * task * string) :
  snd (organize_match E C out_dir soft_link fuel m) = Ok tt ->
  fst (organize_match E C out_dir soft_link fuel m)
  = placement_calls E C out_dir soft_link fuel m.
Proof.
  destruct m as [[ov t] f]. cbn [organize_match]. intros Done.
  unfold placement_calls, target_location, resolved.
  destruct (place_file E C out_dir soft_link fuel ov t f) as [t0 o] eqn:PF.
  destruct o as [uri|e|];
    [| now elim (organize_file_fails E C out_dir soft_link fuel ov t f t0 _ PF)
     | now elim (organize_file_fails E C out_dir soft_link fuel ov t f t0 _ PF)].
  rewrite (organize_file_calls E C out_dir soft_link fuel ov t f _ _ PF) in Done |- *.
  cbn [fst snd] in Done |- *. unfold report_calls.
  rewrite add_table_cases, add_track_cases in Done |- *.
  assert (T : t0 = match path ov with
                   | Some p =>
                       match Interp.interpret_inline_exp E fuel p f (shard_idx t) with
                       | Ok ip => [Copy f (Path.join out_dir ip) soft_link]
                       | _ => []
                       end
                   | None => []
                   end /\
              uri = match path ov with
                    | Some p =>
                        match Interp.interpret_inline_exp E fuel p f (shard_idx t) with
                        | Ok ip => copy C f (Path.join out_dir ip) soft_link
                        | _ => f
                        end
                    | None => f
                    end).
  { destruct (path ov) as [p|] eqn:P.
    - rewrite (place_file_Some E C out_dir soft_link fuel ov t f p P) in PF.
      destruct (Interp.interpret_inline_exp E fuel p f (shard_idx t));
        try discriminate.
      injection PF as <- <-. now split.
    - rewrite (place_file_None E C out_dir soft_link fuel ov t f P) in PF.
      injection PF as <- <-. now split. }
  destruct T as [T U].
  destruct (path ov) as [p|];
    [destruct (Interp.interpret_inline_exp E fuel p f (shard_idx t)) as [ip| |]|];
    subst t0 uri; cbn [app];
    (destruct (table ov) as [item|];
     [destruct (Interp.interpret_inline_exp E fuel item f (shard_idx t));
      try discriminate|]);
    (destruct (ucsc_track ov) as [track|];
     [match goal with
      | |- context [get_url C ?u] => destruct (get_url C u)
      end;
      [destruct (Interp.interpret_inline_exp E fuel track f (shard_idx t));
       try discriminate|]|]);
    cbn [fst snd app] in Done |- *; try discriminate;
    try reflexivity;
    match goal with
    | |- context [get_url C ?u] => now destruct (get_url C u)
    end.
Qed.

(** A run that completes has made the calls the specification lists for
    the matches, one match after the other, then saved the report. *)
Lemma organize_output_calls (d : out_def) :
  snd (organize_output E C out_dir soft_link d nodes fuel) = Ok tt ->
  fst (organize_output E C out_dir soft_link d nodes fuel) =
    (flat_map (placement_calls E C out_dir soft_link fuel) (matches d nodes)
     ++ [SaveToFile])%list.
Proof.
  intros Done.
  destruct (organize_output_completes E C out_dir soft_link fuel node nodes d Done)
    as [-> Hall].
  f_equal. induction Hall as [|m ms Hm _ IH]; [reflexivity|].
  cbn [flat_map]. now rewrite IH, (organize_match_calls m Hm).
Qed.

(** The URIs looked up by the calls of the matches are their final
    locations. *)
Lemma located_placement_calls (ms : list (out_var * task * string)) :
  located (flat_map (placement_calls E C out_dir soft_link fuel) ms)
  = map (target_location E C out_dir soft_link fuel) ms.
Proof.
  induction ms as [|m ms IH]; [reflexivity|].
  cbn [flat_map map]. rewrite located_app, IH. f_equal.
  destruct m as [[ov t] f]. unfold placement_calls.
  rewrite !located_app. cbn [located flat_map app].
  destruct (resolved E fuel (path ov) t f);
    destruct (resolved E fuel (table ov) t f);
    destruct (get_url C (target_location E C out_dir soft_link fuel (ov, t, f)));
    destruct (resolved E fuel (ucsc_track ov) t f); reflexivity.
Qed.

(** C5.  [organize_output] runs the body of the loops once for every match,
    in the order of the list of matches: the definition in its declared
    order (task name, then output variable name), for each entry the nodes
    of the task graph in traversal order, and for each node its output list
    in order; the report is saved after the last one.  When the run
    completes, the calls the collaborators have received are, match after
    match in that order, the placement of the file at its destination
    candidate, the lookup of the URL of its final location, its table
    entry and its track entry; the final locations looked up are those of
    the matches, in that order. *)
Theorem placements_follow_nested_loop_order (d : out_def) :
  organize_output E C out_dir soft_link d nodes fuel =
    bind (for_each (matches d nodes) (organize_match E C out_dir soft_link fuel))
         (fun _ => emit SaveToFile) /\
  (snd (organize_output E C out_dir soft_link d nodes fuel) = Ok tt ->
   fst (organize_output E C out_dir soft_link d nodes fuel) =
     (flat_map (placement_calls E C out_dir soft_link fuel) (matches d nodes)
      ++ [SaveToFile])%list /\
   located (fst (organize_output E C out_dir soft_link d nodes fuel)) =
     map (target_location E C out_dir soft_link fuel) (matches d nodes)).
Proof.
  split; [apply organize_output_matches|].
  intros Done. rewrite (organize_output_calls d Done).
  split; [reflexivity|].
  rewrite located_app, located_placement_calls. cbn [located flat_map app].
  apply app_nil_r.
Qed.

End PlacementFacts.

Lemma placements_follow_nested_loop_order_witness :
  snd (Organize.organize_output Interp.bare_env Organize.local_caper "/out" true
         Organize.ordered_def Organize.ordered_nodes 3) = Ok tt /\
  fst (Organize.organize_output Interp.bare_env Organize.local_caper "/out" true
         Organize.ordered_def Organize.ordered_nodes 3) =
  [ Organize.Copy "/work/a.bam" "/out/align/rep0/a.bam" true;
    Organize.GetUrl "/out/align/rep0/a.bam";
    Organize.AddToFileTable "/out/align/rep0/a.bam" None "BAM rep0";
    Organize.Copy "/work/b.bam" "/out/align/rep0/b.bam" true;
    Organize.GetUrl "/out/align/rep0/b.bam";
    Organize.AddToFileTable "/out/align/rep0/b.bam" None "BAM rep0";
    Organize.Copy "/work/c.bam" "/out/align/rep1/c.bam" true;
    Organize.GetUrl "/out/align/rep1/c.bam";
    Organize.AddToFileTable "/out/align/rep1/c.bam" None "BAM rep1";
    Organize.Copy "/work/qc.html" "/out/qc/qc.html" true;
    Organize.GetUrl "/out/qc/qc.html";
    Organize.SaveToFile ] /\
  Organize.located
    (fst (Organize.organize_output Interp.bare_env Organize.local_caper "/out"
            true Organize.ordered_def Organize.ordered_nodes 3)) =
  [ "/out/align/rep0/a.bam"; "/out/align/rep0/b.bam"; "/out/align/rep1/c.bam";
    "/out/qc/qc.html" ].
Proof.
  split; [reflexivity|].
  exact (proj2 (placements_follow_nested_loop_order Interp.bare_env
                  Organize.local_caper "/out" true 3 nat Organize.ordered_nodes
                  Organize.ordered_def) eq_refl).
Defined.

Lemma one_placement_per_match_with_path_witness :
  snd (Organize.organize_output Interp.bare_env Organize.local_caper "/out" true
         Organize.example_def Organize.twice_nodes 3) = Ok tt /\
  Organize.copied
    (fst (Organize.organize_output Interp.bare_env Organize.local_caper "/out"
            true Organize.example_def Organize.twice_nodes 3))
  = ["/work/xyz.bam"; "/work/xyz.bam"].
Proof.
  split; [reflexivity|].
  apply (one_placement_per_match_with_path Interp.bare_env Organize.local_caper
           "/out" true 3 nat Organize.twice_nodes Organize.example_def).
  reflexivity.
Defined.

(** C7 (as stated) fails: for an output variable without a [path] the file
    matches once, the run completes, and no copy is asked for. *)
Lemma match_without_path_is_not_placed :
  List.length (Organize.matches Organize.pathless_def Organize.example_nodes) = 1 /\
  snd (Organize.organize_output Interp.bare_env Organize.local_caper "/out" true
         Organize.pathless_def Organize.example_nodes 3) = Ok tt /\
  Organize.copied
    (fst (Organize.organize_output Interp.bare_env Organize.local_caper "/out"
            true Organize.pathless_def Organize.example_nodes 3)) = [].
Proof. repeat split; reflexivity. Qed.

(** ** Entries that match nothing *)

Section EmptyEntry.

Import Organize.

Variables (E : Py.env) (C : caper) (out_dir : string) (soft_link : bool).
Variable fuel : nat.
Variable node : Type.
Variable nodes : list (node * task).

Lemma matching_files_nil (name out_var_name : string) (t : task) :
  (task_name t = name ->
   forall k f, In (k, f) (out_files t) -> k <> out_var_name) ->
  matching_files name out_var_name t = [].
Proof.
  intros H. unfold matching_files.
  destruct (String.eqb_spec name (task_name t)) as [Heq|]; [|reflexivity].
  specialize (H (eq_sym Heq)).
  induction (out_files t) as [|[k f] r IH]; [reflexivity|].
  cbn [filter fst]. destruct (String.eqb_spec k out_var_name) as [->|_].
  - now elim (H out_var_name f (or_introl eq_refl)).
  - apply IH. intros k' f' Hin. apply (H k' f'). now right.
Qed.

Lemma entry_matches_nil (name out_var_name : string) (ov : out_var) :
  (forall n t k f,
     In (n, t) nodes -> task_name t = name -> In (k, f) (out_files t) ->
     k <> out_var_name) ->
  entry_matches nodes name out_var_name ov = [].
Proof.
  unfold entry_matches. induction nodes as [|[n t] r IH]; intros H; [reflexivity|].
  cbn [flat_map snd]. rewrite matching_files_nil.
  - apply IH. intros n' t' k f Hin. apply (H n' t' k f). now right.
  - intros Hn k f Hin. now apply (H n t k f (or_introl eq_refl)).
Qed.

(** C9.  For an entry of the definition (a task name and an output variable
    name) that no output of any node matches, the loops over the nodes make
    no call and complete without an exception, and the whole run makes the
    calls and has the outcome of the run on the definition without that
    entry: it completes when that run does. *)
Theorem entry_without_match_is_skipped (name out_var_name : string)
    (ov : out_var) :
  (forall n t k f,
     In (n, t) nodes -> task_name t = name -> In (k, f) (out_files t) ->
     k <> out_var_name) ->
  organize_out_var E C out_dir soft_link nodes fuel name out_var_name ov
  = ([], Ok tt) /\
  forall (d1 d2 : out_def) (vs1 vs2 : list (string * out_var)),
    organize_output E C out_dir soft_link
      (d1 ++ (name, vs1 ++ (out_var_name, ov) :: vs2) :: d2)%list nodes fuel =
    organize_output E C out_dir soft_link
      (d1 ++ (name, vs1 ++ vs2) :: d2)%list nodes fuel.
Proof.
  intros H. pose proof (entry_matches_nil name out_var_name ov H) as Nil.
  split.
  - now rewrite organize_out_var_matches, Nil.
  - intros d1 d2 vs1 vs2. rewrite !organize_output_matches.
    f_equal. f_equal. unfold matches.
    rewrite !flat_map_app. cbn [flat_map fst snd].
    rewrite !flat_map_app. cbn [flat_map fst snd].
    now rewrite Nil.
Qed.

End EmptyEntry.

Lemma entry_without_match_is_skipped_witness :
  Organize.organize_out_var Interp.bare_env Organize.local_caper "/out" true
    Organize.example_nodes 3 "align" "qc"
    (Organize.OutVar (Some "qc/${nope}") None None) = ([], Ok tt) /\
  snd (Organize.organize_output Interp.bare_env Organize.local_caper "/out" true
         [("align",
           [("qc", Organize.OutVar (Some "qc/${nope}") None None);
            ("bam", Organize.OutVar (Some "align/rep${i}/${basename}")
                                    (Some "BAM rep${i}") None)])]
         Organize.example_nodes 3) = Ok tt.
Proof.
  pose proof (entry_without_match_is_skipped Interp.bare_env Organize.local_caper
                "/out" true 3 nat Organize.example_nodes "align" "qc"
                (Organize.OutVar (Some "qc/${nope}") None None)) as T.
  assert (H : forall (n : nat) t k f,
             In (n, t) Organize.example_nodes ->
             Organize.task_name t = "align" ->
             In (k, f) (Organize.out_files t) -> k <> "qc").
  { intros n t k f [Hn|[]] _ Hk. injection Hn as _ <-.
    destruct Hk as [Hk|[]]. injection Hk as <- _. discriminate. }
  destruct (T H) as [T1 T2]. split; [exact T1|].
  pose proof (T2 [] [] [] [("bam", Organize.OutVar (Some "align/rep${i}/${basename}")
                                            (Some "BAM rep${i}") None)]) as T3.
  cbn [app] in T3. rewrite T3. reflexivity.
Defined.

(** ** The scenario of the documentation, run *)

Example organize_example :
  Organize.organize_output Interp.bare_env Organize.local_caper "/out" true
    Organize.example_def Organize.example_nodes 3
  = ([ Organize.Copy "/work/xyz.bam" "/out/align/rep0/xyz.bam" true;
       Organize.GetUrl "/out/align/rep0/xyz.bam";
       Organize.AddToFileTable "/out/align/rep0/xyz.bam" None "BAM rep0";
       Organize.SaveToFile ],
     Ok tt).
Proof. reflexivity. Qed.

Example organize_example_with_url :
  Organize.organize_output Interp.bare_env Organize.url_caper "/out" true
    Organize.pathless_def Organize.example_nodes 3
  = ([ Organize.GetUrl "/work/xyz.bam";
       Organize.AddToFileTable "/work/xyz.bam" (Some "http://host/work/xyz.bam")
         "BAM rep0";
       Organize.AddToUcscTrack "http://host/work/xyz.bam" "track 0";
       Organize.SaveToFile ],
     Ok tt).
Proof. reflexivity. Qed.

Example two_placeholders :
  Interp.interpret_inline_exp Interp.bare_env 3 "align/rep${i}/${basename}"
    "/work/xyz.bam" [1%Z; (-1)%Z; (-1)%Z] = Ok "align/rep1/xyz.bam".
Proof. reflexivity. Qed.

Example dirname_examples :
  Path.dirname "/work/a/xyz.bam" = "/work/a" /\ Path.dirname "/xyz.bam" = "/" /\
  Path.dirname "xyz.bam" = "" /\ Path.basename "gs://bucket/a/xyz.bam" = "xyz.bam".
Proof. repeat split; reflexivity. Qed.

(* ================================================================== *)
(** * Further properties of the interpreter *)

Lemma match_here_finds (e suf : string) :
  Str.mem Str.newline e = false ->
  Re.match_here (Re.placeholder e ++ suf) <> None.
Proof.
  intros H. unfold Re.placeholder. cbn [append Re.match_here].
  change (Ascii.eqb Str.dollar Str.dollar && Ascii.eqb Str.lbrace Str.lbrace)
    with true. cbn iota.
  rewrite append_assoc. cbn [append]. now apply lazy_body_finds.
Qed.

(** The substitution is made where the pattern matched: [result.replace(
    m.group(0), v, 1)] replaces the text between [m.start()] and [m.end()],
    never an earlier occurrence of the same text. *)
Lemma replace1_at_match (v : string) (s : string) : forall pos m,
  Re.search_from pos s = Some m ->
  exists pre suf,
    s = pre ++ Re.group0 m ++ suf /\
    Re.start m = pos + String.length pre /\
    Str.replace1 s (Re.group0 m) v = pre ++ v ++ suf.
Proof.
  induction s as [|c r IH]; intros pos m H; [discriminate|].
  cbn [Re.search_from] in H.
  destruct (Re.match_here (String c r)) as [e|] eqn:M.
  - injection H as <-. cbn [Re.group0 Re.start].
    destruct (match_here_split _ _ M) as (suf & E).
    exists "", suf. rewrite E. cbn [append String.length].
    split; [reflexivity|]. split; [lia|].
    rewrite replace1_eq. unfold Str.startswith.
    now rewrite prefix_append, drop_append.
  - pose proof (search_from_group1 _ _ _ H) as N.
    pose proof (search_from_occurs _ _ _ H) as (G & _).
    destruct (IH _ _ H) as (pre & suf & E & St & Rp).
    exists (String c pre), suf. cbn [append String.length].
    split; [now rewrite E at 1|]. split; [lia|].
    rewrite replace1_eq.
    destruct (Str.startswith (String c r) (Re.group0 m)) eqn:P.
    + exfalso. unfold Str.startswith in P. apply prefix_split in P.
      rewrite G in P.
      pose proof (match_here_finds (Re.group1 m)
                    (Str.drop (String.length (Re.placeholder (Re.group1 m)))
                              (String c r)) N) as F.
      rewrite <- P in F. now elim F.
    + now rewrite Rp.
Qed.

(** X1.  The text put in place of a placeholder is put exactly where the
    pattern matched. *)
Theorem replacement_is_at_the_match (s v : string) (m : Re.match_object) :
  Re.search s = Some m ->
  exists pre suf,
    s = pre ++ Re.group0 m ++ suf /\
    String.length pre = Re.start m /\
    Str.replace1 s (Re.group0 m) v = pre ++ v ++ suf.
Proof.
  intros H. destruct (replace1_at_match v s 0 m H) as (pre & suf & E & St & Rp).
  exists pre, suf. repeat split; [exact E | now rewrite St | exact Rp].
Qed.

Lemma replacement_is_at_the_match_witness :
  Re.search "$${i}/${i}" = Some (Re.Match 1 "${i}" "i") /\
  exists pre suf,
    "$${i}/${i}" = pre ++ "${i}" ++ suf /\
    String.length pre = 1 /\
    Str.replace1 "$${i}/${i}" "${i}" "0" = pre ++ "0" ++ suf.
Proof.
  split; [reflexivity|].
  apply (replacement_is_at_the_match "$${i}/${i}" "0" (Re.Match 1 "${i}" "i")).
  reflexivity.
Defined.

(** X2.  A text the interpreter has returned is returned as it is when it
    is interpreted again, for any file and any scatter index that is not
    empty. *)
Theorem interpreted_text_is_left_alone (E : Py.env) (fuel : nat)
    (s p : string) (sh : list Z) (r : string) :
  Interp.interpret_inline_exp E fuel s p sh = Ok r ->
  forall (n : nat) (p' : string) (sh' : list Z),
    sh' <> [] ->
    Interp.interpret_inline_exp E (S n) r p' sh' = Ok r.
Proof.
  intros H n p' sh' NE.
  assert (S0 : Re.search r = None).
  { destruct sh as [|x sh0]; [discriminate|].
    rewrite interpret_eq in H by discriminate. eapply loop_resolved, H. }
  rewrite (interpret_eq E _ _ _ sh' NE). now apply loop_done.
Qed.

Lemma interpreted_text_is_left_alone_witness :
  Interp.interpret_inline_exp Interp.bare_env 3 "rep${i}/${basename}"
    "/work/xyz.bam" [0%Z] = Ok "rep0/xyz.bam" /\
  Interp.interpret_inline_exp Interp.bare_env 1 "rep0/xyz.bam" "/other" [(-1)%Z]
  = Ok "rep0/xyz.bam".
Proof.
  split; [reflexivity|].
  apply (interpreted_text_is_left_alone Interp.bare_env 3 "rep${i}/${basename}"
           "/work/xyz.bam" [0%Z] "rep0/xyz.bam" eq_refl 0 "/other" [(-1)%Z]).
  discriminate.
Defined.

(** ** Templates made of text and supported names *)

Lemma lazy_body_name (name rest : string) :
  Str.mem Str.rbrace name = false ->
  Str.mem Str.newline name = false ->
  Re.lazy_body (name ++ String Str.rbrace rest) = Some name.
Proof.
  induction name as [|c r IH]; cbn [append Re.lazy_body Str.mem]; intros B N.
  - reflexivity.
  - apply orb_false_iff in B as [Bc Br]. apply orb_false_iff in N as [Nc Nr].
    now rewrite Bc, Nc, (IH Br Nr).
Qed.

Lemma search_after_text (a name rest : string) :
  Str.mem Str.dollar a = false ->
  Str.mem Str.rbrace name = false ->
  Str.mem Str.newline name = false ->
  forall pos,
    Re.search_from pos (a ++ Re.placeholder name ++ rest)
    = Some (Re.Match (pos + String.length a) (Re.placeholder name) name).
Proof.
  intros A B N. induction a as [|c a' IH]; intros pos.
  - cbn [append String.length]. unfold Re.placeholder at 1.
    cbn [append Re.search_from Re.match_here].
    change (Ascii.eqb Str.dollar Str.dollar && Ascii.eqb Str.lbrace Str.lbrace)
      with true. cbn iota.
    rewrite append_assoc. cbn [append]. rewrite (lazy_body_name _ _ B N).
    now rewrite Nat.add_0_r.
  - cbn [Str.mem] in A. apply orb_false_iff in A as [Ac Aa].
    cbn [append Re.search_from String.length].
    assert (M : Re.match_here (String c (a' ++ Re.placeholder name ++ rest)) = None).
    { cbn [Re.match_here].
      destruct (a' ++ Re.placeholder name ++ rest); [reflexivity | now rewrite Ac]. }
    rewrite M, (IH Aa). f_equal. f_equal. lia.
Qed.

Lemma replace1_after_text (a o rest v : string) (c : ascii) :
  Str.mem c a = false ->
  Str.replace1 (a ++ String c o ++ rest) (String c o) v = a ++ v ++ rest.
Proof.
  induction a as [|x a' IH]; intros A.
  - cbn [append]. rewrite replace1_eq. unfold Str.startswith.
    change (String c (o ++ rest)) with (String c o ++ rest).
    now rewrite prefix_append, drop_append.
  - cbn [Str.mem] in A. apply orb_false_iff in A as [Ax Aa].
    cbn [append]. rewrite replace1_eq.
    assert (P : Str.startswith (String x (a' ++ String c (o ++ rest))) (String c o)
                = false).
    { unfold Str.startswith. cbn [String.prefix].
      destruct (Ascii.ascii_dec c x) as [->|]; [|reflexivity].
      now rewrite Ascii.eqb_refl in Ax. }
    rewrite P. f_equal. exact (IH Aa).
Qed.

Lemma mem_rstrip (c x : ascii) (s : string) :
  Str.mem c s = false -> Str.mem c (Str.rstrip x s) = false.
Proof.
  induction s as [|d r IH]; cbn [Str.mem Str.rstrip]; [auto|].
  intros H. apply orb_false_iff in H as [Hd Hr]. specialize (IH Hr).
  destruct (Str.rstrip x r) as [|e r'].
  - destruct (Ascii.eqb d x); cbn [Str.mem]; [reflexivity | now rewrite Hd].
  - cbn [Str.mem] in *. now rewrite Hd, IH.
Qed.

Lemma mem_basename (c : ascii) (p : string) :
  Str.mem c p = false -> Str.mem c (Path.basename p) = false.
Proof.
  intros H. destruct (split_last_spec p) as (E & _).
  rewrite E, mem_append in H. now apply orb_false_iff in H as [_ H].
Qed.

Lemma mem_dirname (c : ascii) (p : string) :
  Str.mem c p = false -> Str.mem c (Path.dirname p) = false.
Proof.
  intros H. destruct (split_last_spec p) as (E & _).
  rewrite E, mem_append in H. apply orb_false_iff in H as [H _].
  unfold Path.dirname.
  destruct (negb (fst (Path.split_last p) =? "")
            && negb (Str.all_char Str.slash (fst (Path.split_last p))));
    [now apply mem_rstrip | exact H].
Qed.

Lemma join_comma_no_dollar (t : list Z) :
  Str.mem Str.dollar (Py.join_comma t) = false.
Proof.
  induction t as [|x r IH]; [reflexivity|].
  cbn [Py.join_comma]. destruct r as [|y r'].
  - apply str_of_int_no_dollar.
  - now rewrite !mem_append, str_of_int_no_dollar, IH.
Qed.

Lemma str_of_tuple_no_dollar (t : list Z) :
  Str.mem Str.dollar (Py.str_of_tuple t) = false.
Proof.
  unfold Py.str_of_tuple.
  destruct t as [|x [|y r]]; rewrite !mem_append, ?str_of_int_no_dollar,
    ?join_comma_no_dollar; reflexivity.
Qed.

Lemma int_or_none_no_dollar (x : option Z) :
  Str.mem Str.dollar (Py.str (Interp.int_or_none x)) = false.
Proof. destruct x; [apply str_of_int_no_dollar | reflexivity]. Qed.

(** What a supported name stands for, and what [eval] finds for it. *)
Lemma supported_name (E : Py.env) (s p : string) (sh : list Z) (r : string)
    (m : Re.match_object) (name : string) :
  existsb (String.eqb name) Interp.supported = true ->
  Py.is_identifier name = true /\
  Str.mem Str.rbrace name = false /\
  Str.mem Str.newline name = false /\
  exists v,
    Template.binding p sh name = Some v /\
    Interp.lookup E
      (Interp.Locals s p sh r (Interp.index_at 0 sh) (Interp.index_at 1 sh)
         (Interp.index_at 2 sh) (Path.basename p) (Path.dirname p) m) name
    = Some v /\
    (Str.mem Str.dollar p = false -> Str.mem Str.dollar (Py.str v) = false).
Proof.
  cbn [existsb Interp.supported]. intros H.
  repeat (apply orb_true_iff in H as [H|H];
          [apply String.eqb_eq in H; subst name|]); try discriminate H;
    (split; [reflexivity|]); (split; [reflexivity|]); (split; [reflexivity|]);
    eexists; (split; [reflexivity|]); (split; [reflexivity|]); intros D;
    cbn [Py.str];
    auto using int_or_none_no_dollar, mem_basename, mem_dirname,
      str_of_tuple_no_dollar.
Qed.

Lemma fill_loop (E : Py.env) (s p : string) (sh : list Z)
    (ps : list Template.piece) :
  Str.mem Str.dollar p = false ->
  forallb Template.plain ps = true ->
  forall fuel a,
    Str.mem Str.dollar a = false ->
    Template.holes ps < fuel ->
    Interp.loop E fuel s p sh (Interp.index_at 0 sh) (Interp.index_at 1 sh)
      (Interp.index_at 2 sh) (Path.basename p) (Path.dirname p)
      (a ++ Template.render ps)
    = Ok (a ++ Template.fill p sh ps).
Proof.
  intros D. induction ps as [|[t|name] r IH]; intros Pl fuel a A L.
  - destruct fuel as [|fuel]; [cbn in L; lia|].
    cbn [Template.render Template.fill]. rewrite append_empty_r.
    now apply loop_done, search_no_dollar.
  - cbn [forallb Template.plain] in Pl. apply andb_true_iff in Pl as [Pt Pr].
    apply negb_true_iff in Pt.
    cbn [Template.render Template.fill Template.holes] in *.
    rewrite <- !append_assoc. apply IH; [exact Pr | | exact L].
    now rewrite mem_append, A, Pt.
  - cbn [forallb Template.plain] in Pl. apply andb_true_iff in Pl as [Pn Pr].
    cbn [Template.render Template.fill Template.holes] in *.
    destruct fuel as [|fuel]; [lia|].
    destruct (supported_name E s p sh (a ++ Re.placeholder name ++ Template.render r)
                (Re.Match (0 + String.length a) (Re.placeholder name) name) name Pn)
      as (I & B & N & v & Bv & Lv & Dv).
    rewrite (loop_turn E s p sh _ _ _ fuel _ _
               (search_after_text a name (Template.render r) A B N 0)).
    cbn [Re.group0 Re.group1].
    rewrite (eval_bound_name E _ name v I Lv). cbn [obind].
    rewrite Bv. unfold Re.placeholder at 1.
    change (String Str.dollar (String Str.lbrace (name ++ String Str.rbrace "")))
      with (Re.placeholder name).
    unfold Re.placeholder.
    rewrite (replace1_after_text a _ (Template.render r) (Py.str v) Str.dollar A).
    rewrite <- !append_assoc. apply IH; [exact Pr | | lia].
    now rewrite mem_append, A, (Dv D).
Qed.

(** X3.  For a template made of text without [$] and of placeholders for
    the supported names ([i], [j], [k], [basename], [dirname], [full_path],
    [shard_idx]), a file location without [$] and a scatter index that is
    not empty, the interpreter returns the template with every placeholder
    replaced by the text of what its name stands for, from left to right,
    given one unit of fuel more than there are placeholders. *)
Theorem plain_template_is_filled (E : Py.env) (n : nat) (p : string)
    (sh : list Z) (ps : list Template.piece) :
  sh <> [] ->
  forallb Template.plain ps = true ->
  Str.mem Str.dollar p = false ->
  Interp.interpret_inline_exp E (S (Template.holes ps) + n)
    (Template.render ps) p sh
  = Ok (Template.fill p sh ps).
Proof.
  intros NE Pl D. rewrite (interpret_eq E _ _ _ sh NE).
  apply (fill_loop E (Template.render ps) p sh ps D Pl _ "" eq_refl). lia.
Qed.

Lemma plain_template_is_filled_witness :
  Template.render [Template.Text "align/rep"; Template.Hole "i";
                   Template.Text "/"; Template.Hole "basename"]
  = "align/rep${i}/${basename}" /\
  Interp.interpret_inline_exp Interp.bare_env 3 "align/rep${i}/${basename}"
    "/work/xyz.bam" [1%Z; (-1)%Z; (-1)%Z] = Ok "align/rep1/xyz.bam".
Proof.
  split; [reflexivity|].
  apply (plain_template_is_filled Interp.bare_env 0 "/work/xyz.bam"
           [1%Z; (-1)%Z; (-1)%Z]
           [Template.Text "align/rep"; Template.Hole "i"; Template.Text "/";
            Template.Hole "basename"]); [discriminate | reflexivity | reflexivity].
Defined.

(* ================================================================== *)
(** * Further properties of [organize_output] *)

Section RunFacts.

Import Organize.

Variables (E : Py.env) (C : caper) (out_dir : string) (soft_link : bool).
Variable fuel : nat.
Variable node : Type.
Variable nodes : list (node * task).

(** A file is in the list of matches exactly when the definition has an
    entry for the task name of a node of the graph and for the name under
    which the node lists the file. *)
Lemma in_matches (d : out_def) (ov : out_var) (t : task) (f : string) :
  In (ov, t, f) (matches d nodes) <->
  exists out_vars out_var_name n,
    In (task_name t, out_vars) d /\
    In (out_var_name, ov) out_vars /\
    In (n, t) nodes /\
    In (out_var_name, f) (out_files t).
Proof.
  unfold matches, entry_matches, matching_files. split.
  - intros H. apply in_flat_map in H as ([name out_vars] & Hd & H).
    apply in_flat_map in H as ([out_var_name ov'] & Hv & H).
    apply in_flat_map in H as ([n t'] & Hn & H).
    apply in_map_iff in H as (f' & Heq & H). cbn [fst snd] in *.
    injection Heq as -> -> ->.
    destruct (String.eqb_spec name (task_name t)) as [->|]; [|destruct H].
    apply in_map_iff in H as ([k f'] & Hf & H). cbn [snd] in Hf. subst f'.
    apply filter_In in H as [H K]. cbn [fst] in K.
    apply String.eqb_eq in K. subst k.
    now exists out_vars, out_var_name, n.
  - intros (out_vars & out_var_name & n & Hd & Hv & Hn & Hf).
    apply in_flat_map. exists (task_name t, out_vars). split; [exact Hd|].
    apply in_flat_map. exists (out_var_name, ov). split; [exact Hv|].
    apply in_flat_map. exists (n, t). split; [exact Hn|].
    cbn [fst snd]. apply in_map. rewrite String.eqb_refl.
    apply in_map_iff. exists (out_var_name, f). split; [reflexivity|].
    apply filter_In. split; [exact Hf|]. cbn [fst]. apply String.eqb_refl.
Qed.

(** X4.  In a run of [organize_output] that completes, a file is copied
    exactly when the definition has an entry with a [path] for the task name
    of a node of the graph and for the name under which the node lists the
    file, the names being compared for equality; and a URL is looked up for
    a URI exactly when the URI is the final location of a file that has
    such an entry, with a [path] or without. *)
Theorem file_is_organized_iff_entry_matches (d : out_def) :
  snd (organize_output E C out_dir soft_link d nodes fuel) = Ok tt ->
  (forall f,
     In f (copied (fst (organize_output E C out_dir soft_link d nodes fuel))) <->
     exists out_vars out_var_name ov n t,
       In (task_name t, out_vars) d /\
       In (out_var_name, ov) out_vars /\
       In (n, t) nodes /\
       In (out_var_name, f) (out_files t) /\
       has_path ov = true) /\
  (forall uri,
     In uri (located (fst (organize_output E C out_dir soft_link d nodes fuel))) <->
     exists out_vars out_var_name ov n t f,
       In (task_name t, out_vars) d /\
       In (out_var_name, ov) out_vars /\
       In (n, t) nodes /\
       In (out_var_name, f) (out_files t) /\
       uri = target_location E C out_dir soft_link fuel (ov, t, f)).
Proof.
  intros Done. split.
  - intros f.
    destruct (organize_output_completes E C out_dir soft_link fuel node nodes d Done)
      as [-> Hall].
    destruct (matches_place E C out_dir soft_link fuel _ Hall) as [_ Hc].
    rewrite copied_app, Hc. cbn [copied flat_map app]. rewrite app_nil_r.
    rewrite in_map_iff. split.
    + intros ([[ov t] f'] & Hf & H). cbn [snd] in Hf. subst f'.
      apply filter_In in H as [H P]. cbn [fst] in P.
      apply in_matches in H as (out_vars & out_var_name & n & H).
      exists out_vars, out_var_name, ov, n, t. tauto.
    + intros (out_vars & out_var_name & ov & n & t & Hd & Hv & Hn & Hf & P).
      exists (ov, t, f). split; [reflexivity|].
      apply filter_In. split; [|exact P].
      apply in_matches. now exists out_vars, out_var_name, n.
  - intros uri.
    rewrite (organize_output_calls E C out_dir soft_link fuel node nodes d Done).
    rewrite located_app, located_placement_calls. cbn [located flat_map app].
    rewrite app_nil_r, in_map_iff. split.
    + intros ([[ov t] f] & Hu & H).
      apply in_matches in H as (out_vars & out_var_name & n & H).
      exists out_vars, out_var_name, ov, n, t, f. intuition congruence.
    + intros (out_vars & out_var_name & ov & n & t & f & Hd & Hv & Hn & Hf & ->).
      exists (ov, t, f). split; [reflexivity|].
      apply in_matches. now exists out_vars, out_var_name, n.
Qed.

Lemma organize_file_place_fails (ov : out_var) (t : task) (f : string)
    (t0 : list call) (o : outcome string) :
  place_file E C out_dir soft_link fuel ov t f = (t0, o) ->
  (forall uri, o <> Ok uri) ->
  fst (organize_file E C out_dir soft_link fuel ov t f) = t0.
Proof.
  intros P N. unfold organize_file. rewrite P.
  destruct o as [uri| |]; [now elim (N uri) | reflexivity | reflexivity].
Qed.

Lemma report_calls_kinds (ov : out_var) (t : task) (f uri : string) (c : call) :
  In c (report_calls E C fuel ov t f uri) ->
  is_table c = true \/ is_track c = true.
Proof.
  unfold report_calls. rewrite add_table_cases, add_track_cases.
  destruct (table ov) as [item|];
    [destruct (Interp.interpret_inline_exp E fuel item f (shard_idx t))|];
    (destruct (ucsc_track ov) as [track|];
     [destruct (get_url C uri);
      [destruct (Interp.interpret_inline_exp E fuel track f (shard_idx t))|]|]);
    cbn [fst snd app In]; intros H;
    repeat (destruct H as [H|H]; [subst c; cbn; auto|]); destruct H.
Qed.

(** Every call made for a match: a copy of the matched file to the
    interpreted path joined onto the output directory, a URL lookup, an
    entry of the table or a track. *)
Lemma organize_file_call (ov : out_var) (t : task) (f : string) (c : call) :
  In c (fst (organize_file E C out_dir soft_link fuel ov t f)) ->
  (exists p ip,
     path ov = Some p /\
     Interp.interpret_inline_exp E fuel p f (shard_idx t) = Ok ip /\
     c = Copy f (Path.join out_dir ip) soft_link) \/
  is_get_url c = true \/ is_table c = true \/ is_track c = true.
Proof.
  destruct (path ov) as [p|] eqn:P.
  - pose proof (place_file_Some E C out_dir soft_link fuel ov t f p P) as PF.
    destruct (Interp.interpret_inline_exp E fuel p f (shard_idx t)) as [ip|e|] eqn:I.
    + rewrite (organize_file_calls E C out_dir soft_link fuel ov t f _ _ PF).
      cbn [fst app In]. intros [H|[H|H]].
      * left. exists p, ip. now subst c.
      * right. left. now subst c.
      * right. right. eapply report_calls_kinds, H.
    + rewrite (organize_file_place_fails ov t f _ _ PF) by discriminate.
      intros [].
    + rewrite (organize_file_place_fails ov t f _ _ PF) by discriminate.
      intros [].
  - pose proof (place_file_None E C out_dir soft_link fuel ov t f P) as PF.
    rewrite (organize_file_calls E C out_dir soft_link fuel ov t f _ _ PF).
    cbn [fst app In]. intros [H|H].
    + right. left. now subst c.
    + right. right. eapply report_calls_kinds, H.
Qed.

Lemma in_for_each {A : Type} (xs : list A) (g : A -> M unit) (c : call) :
  In c (fst (for_each xs g)) -> exists x, In x xs /\ In c (fst (g x)).
Proof.
  induction xs as [|x r IH]; cbn [for_each]; [intros []|].
  destruct (g x) as [t o] eqn:G. unfold bind.
  destruct o as [[]| |]; cbn [fst].
  - destruct (for_each r g) as [t' o']. cbn [fst] in *.
    intros H. apply in_app_or in H as [H|H].
    + exists x. split; [now left | now rewrite G].
    + destruct (IH H) as (y & Hy & Hc). exists y. split; [now right | exact Hc].
  - intros H. exists x. split; [now left | now rewrite G].
  - intros H. exists x. split; [now left | now rewrite G].
Qed.

Lemma for_each_all_complete {A : Type} (xs : list A) (g : A -> M unit) :
  Forall (fun x => snd (g x) = Ok tt) xs ->
  for_each xs g = (flat_map (fun x => fst (g x)) xs, Ok tt).
Proof.
  induction 1 as [|x r Hx _ IH]; [reflexivity|].
  cbn [for_each flat_map]. rewrite IH. destruct (g x) as [t o].
  cbn [snd] in Hx. subst o. reflexivity.
Qed.

Lemma in_organize_output (d : out_def) (c : call) :
  In c (fst (organize_output E C out_dir soft_link d nodes fuel)) ->
  (c = SaveToFile /\
   snd (organize_output E C out_dir soft_link d nodes fuel) = Ok tt) \/
  exists m, In m (matches d nodes) /\
            In c (fst (organize_match E C out_dir soft_link fuel m)).
Proof.
  rewrite organize_output_matches.
  pose proof (in_for_each (matches d nodes)
                (organize_match E C out_dir soft_link fuel) c) as F.
  destruct (for_each (matches d nodes) (organize_match E C out_dir soft_link fuel))
    as [t [[]| |]]; unfold bind, emit; cbn [fst snd] in *; intros H.
  - apply in_app_or in H as [H|[H|[]]]; [right; auto | left; auto].
  - right; auto.
  - right; auto.
Qed.

(** X5.  Every copy that a run asks for, whether the run completes or not,
    is the copy of a matched file whose output variable has a [path]; it
    carries the link flag of the run, and its target is the interpreted path
    joined onto the output directory: under the output directory when the
    interpreted path does not begin with [/], and the interpreted path
    itself when it does. *)
Theorem every_copy_is_of_a_match (d : out_def) (source target : string)
    (flag : bool) :
  In (Copy source target flag)
     (fst (organize_output E C out_dir soft_link d nodes fuel)) ->
  flag = soft_link /\
  exists ov t p ip,
    In (ov, t, source) (matches d nodes) /\
    path ov = Some p /\
    Interp.interpret_inline_exp E fuel p source (shard_idx t) = Ok ip /\
    target = Path.join out_dir ip /\
    (Str.startswith ip "/" = false -> String.prefix out_dir target = true) /\
    (Str.startswith ip "/" = true -> target = ip).
Proof.
  intros H. apply in_organize_output in H as [[H _]|([[ov t] f] & Hm & H)];
    [discriminate|].
  cbn [organize_match] in H.
  apply organize_file_call in H as [(p & ip & P & I & H)|[H|[H|H]]];
    try discriminate H.
  injection H as <- -> ->. split; [reflexivity|].
  exists ov, t, p, ip. repeat split; try assumption.
  - intros S0. unfold Path.join. rewrite S0.
    destruct ((out_dir =? "") || Str.endswith_char out_dir Str.slash);
      apply prefix_append.
  - intros S0. unfold Path.join. now rewrite S0.
Qed.

Lemma organize_file_never_saves (ov : out_var) (t : task) (f : string) :
  ~ In SaveToFile (fst (organize_file E C out_dir soft_link fuel ov t f)).
Proof.
  intros H. apply organize_file_call in H as [(p & ip & _ & _ & H)|[H|[H|H]]];
    discriminate H.
Qed.

(** X6.  The report is saved exactly when the run completes, once, and
    after every other call: a run that raises, or does not end, never saves
    it. *)
Theorem report_is_saved_iff_run_completes (d : out_def) :
  (In SaveToFile (fst (organize_output E C out_dir soft_link d nodes fuel)) <->
   snd (organize_output E C out_dir soft_link d nodes fuel) = Ok tt) /\
  (snd (organize_output E C out_dir soft_link d nodes fuel) = Ok tt ->
   exists calls,
     fst (organize_output E C out_dir soft_link d nodes fuel)
     = (calls ++ [SaveToFile])%list /\
     ~ In SaveToFile calls).
Proof.
  assert (Done : snd (organize_output E C out_dir soft_link d nodes fuel) = Ok tt ->
                 exists calls,
                   fst (organize_output E C out_dir soft_link d nodes fuel)
                   = (calls ++ [SaveToFile])%list /\
                   ~ In SaveToFile calls).
  { intros H.
    destruct (organize_output_completes E C out_dir soft_link fuel node nodes d H)
      as [Tr _].
    eexists. split; [exact Tr|].
    intros K. apply in_flat_map in K as ([[ov t] f] & _ & K).
    now apply organize_file_never_saves in K. }
  split; [|exact Done]. split.
  - intros H. apply in_organize_output in H as [[_ H]|([[ov t] f] & _ & H)];
      [exact H|].
    now apply organize_file_never_saves in H.
  - intros H. destruct (Done H) as (calls & -> & _).
    apply in_or_app. right. now left.
Qed.

(** X7.  When the body of the loops raises for a match, the run raises the
    same exception: the calls made for the matches before it and for the
    match itself have been made and stay made, and nothing is done for the
    matches after it. *)
Theorem run_stops_at_the_first_failure (d : out_def)
    (before after : list (out_var * task * string))
    (m : out_var * task * string) (e : exn) :
  matches d nodes = (before ++ m :: after)%list ->
  Forall (fun x => snd (organize_match E C out_dir soft_link fuel x) = Ok tt)
         before ->
  snd (organize_match E C out_dir soft_link fuel m) = Raise e ->
  organize_output E C out_dir soft_link d nodes fuel =
  ((flat_map (fun x => fst (organize_match E C out_dir soft_link fuel x)) before
    ++ fst (organize_match E C out_dir soft_link fuel m))%list,
   Raise e).
Proof.
  intros Ms B F. rewrite organize_output_matches, Ms, for_each_app.
  rewrite (for_each_all_complete before _ B). cbn [for_each].
  destruct (organize_match E C out_dir soft_link fuel m) as [t o].
  cbn [snd fst] in *. subst o. reflexivity.
Qed.

(** X8.  The file is copied, and its URL asked for, before the table item
    is interpreted: when the table item raises, the copy has been made and
    no entry is added. *)
Theorem copy_precedes_table_item (ov : out_var) (t : task) (f : string)
    (p ip item : string) (e : exn) :
  path ov = Some p ->
  Interp.interpret_inline_exp E fuel p f (shard_idx t) = Ok ip ->
  table ov = Some item ->
  Interp.interpret_inline_exp E fuel item f (shard_idx t) = Raise e ->
  organize_file E C out_dir soft_link fuel ov t f =
  ([Copy f (Path.join out_dir ip) soft_link;
    GetUrl (copy C f (Path.join out_dir ip) soft_link)],
   Raise e).
Proof.
  intros P I T IT.
  pose proof (place_file_Some E C out_dir soft_link fuel ov t f p P) as PF.
  rewrite I in PF.
  rewrite (organize_file_calls E C out_dir soft_link fuel ov t f _ _ PF).
  unfold report_calls. rewrite add_table_cases, T, IT. reflexivity.
Qed.

Lemma report_of_match (m : out_var * task * string) :
  snd (organize_match E C out_dir soft_link fuel m) = Ok tt ->
  List.length (filter is_table (fst (organize_match E C out_dir soft_link fuel m)))
  = (match table (fst (fst m)) with Some _ => 1 | None => 0 end) /\
  List.length (filter is_track (fst (organize_match E C out_dir soft_link fuel m)))
  <= (match ucsc_track (fst (fst m)) with Some _ => 1 | None => 0 end).
Proof.
  destruct m as [[ov t] f]. cbn [organize_match fst snd]. intros Done.
  destruct (place_file E C out_dir soft_link fuel ov t f) as [t0 o] eqn:PF.
  destruct (place_file_calls E C out_dir soft_link fuel ov t f t0 o PF)
    as [[-> N]|[(-> & _ & ->)|(target & -> & _ & ->)]];
    [now elim (organize_file_fails E C out_dir soft_link fuel ov t f [] o PF N)
    | |];
    rewrite (organize_file_calls E C out_dir soft_link fuel ov t f _ _ PF) in *;
    cbn [fst snd app filter is_table is_track] in *;
    unfold report_calls; rewrite add_table_cases, add_track_cases in *;
    (destruct (table ov) as [item|];
     [destruct (Interp.interpret_inline_exp E fuel item f (shard_idx t))|]);
    try discriminate Done;
    (destruct (ucsc_track ov) as [track|];
     [match goal with
      | |- context [get_url C ?u] => destruct (get_url C u)
      end;
      [destruct (Interp.interpret_inline_exp E fuel track f (shard_idx t))|]|]);
    try discriminate Done; cbn; split; (reflexivity || lia).
Qed.

(** X9.  In a run that completes, the table has one entry for every match
    whose output variable has a table item, and there are at most as many
    tracks as matches whose output variable has a track. *)
Theorem report_entries_counted (d : out_def) :
  snd (organize_output E C out_dir soft_link d nodes fuel) = Ok tt ->
  List.length
    (filter is_table (fst (organize_output E C out_dir soft_link d nodes fuel)))
  = List.length
      (filter (fun m => match table (fst (fst m)) with
                       | Some _ => true | None => false end)
              (matches d nodes)) /\
  List.length
    (filter is_track (fst (organize_output E C out_dir soft_link d nodes fuel)))
  <= List.length
       (filter (fun m => match ucsc_track (fst (fst m)) with
                        | Some _ => true | None => false end)
               (matches d nodes)).
Proof.
  intros Done.
  destruct (organize_output_completes E C out_dir soft_link fuel node nodes d Done)
    as [-> Hall].
  rewrite !filter_app, !length_app. cbn [filter is_table is_track List.length].
  rewrite !Nat.add_0_r.
  induction Hall as [|m ms Hm _ [IHt IHk]]; [cbn; split; [reflexivity | lia]|].
  destruct (report_of_match m Hm) as [Ht Hk].
  cbn [flat_map filter]. rewrite !filter_app, !length_app, Ht.
  destruct (table (fst (fst m))); destruct (ucsc_track (fst (fst m)));
    cbn [List.length]; split; lia.
Qed.

End RunFacts.

Lemma every_copy_is_of_a_match_witness :
  In (Organize.Copy "/work/xyz.bam" "/out/align/rep0/xyz.bam" true)
     (fst (Organize.organize_output Interp.bare_env Organize.local_caper "/out"
             true Organize.example_def Organize.example_nodes 3)) /\
  true = true /\
  exists ov t p ip,
    In (ov, t, "/work/xyz.bam")
       (Organize.matches Organize.example_def Organize.example_nodes) /\
    Organize.path ov = Some p /\
    Interp.interpret_inline_exp Interp.bare_env 3 p "/work/xyz.bam"
      (Organize.shard_idx t) = Ok ip /\
    "/out/align/rep0/xyz.bam" = Path.join "/out" ip /\
    (Str.startswith ip "/" = false ->
     String.prefix "/out" "/out/align/rep0/xyz.bam" = true) /\
    (Str.startswith ip "/" = true -> "/out/align/rep0/xyz.bam" = ip).
Proof.
  split; [left; reflexivity|].
  apply (every_copy_is_of_a_match Interp.bare_env Organize.local_caper "/out"
           true 3 nat Organize.example_nodes Organize.example_def).
  left. reflexivity.
Defined.

Lemma report_is_saved_iff_run_completes_witness :
  snd (Organize.organize_output Interp.bare_env Organize.local_caper "/out" true
         Organize.example_def Organize.example_nodes 3) = Ok tt /\
  In Organize.SaveToFile
     (fst (Organize.organize_output Interp.bare_env Organize.local_caper "/out"
             true Organize.example_def Organize.example_nodes 3)).
Proof.
  split; [reflexivity|].
  apply (proj1 (report_is_saved_iff_run_completes Interp.bare_env
                  Organize.local_caper "/out" true 3 nat Organize.example_nodes
                  Organize.example_def)).
  reflexivity.
Defined.

Lemma run_stops_at_the_first_failure_witness :
  Organize.organize_output Interp.bare_env Organize.local_caper "/out" true
    [("align", [("bam", Organize.OutVar (Some "${basename}") (Some "${nope}") None)])]
    Organize.twice_nodes 3
  = ([Organize.Copy "/work/xyz.bam" "/out/xyz.bam" true;
      Organize.GetUrl "/out/xyz.bam"],
     Raise (NameError "nope")).
Proof.
  apply (run_stops_at_the_first_failure Interp.bare_env Organize.local_caper
           "/out" true 3 nat Organize.twice_nodes
           [("align", [("bam", Organize.OutVar (Some "${basename}")
                                               (Some "${nope}") None)])]
           []
           [(Organize.OutVar (Some "${basename}") (Some "${nope}") None,
             Organize.Task "align"
               [("bam", "/work/xyz.bam"); ("bai", "/work/xyz.bai");
                ("bam", "/work/xyz.bam")] [0%Z; (-1)%Z; (-1)%Z],
             "/work/xyz.bam")]
           (Organize.OutVar (Some "${basename}") (Some "${nope}") None,
            Organize.Task "align"
              [("bam", "/work/xyz.bam"); ("bai", "/work/xyz.bai");
               ("bam", "/work/xyz.bam")] [0%Z; (-1)%Z; (-1)%Z],
            "/work/xyz.bam")
           (NameError "nope")).
  - reflexivity.
  - constructor.
  - reflexivity.
Defined.

Lemma copy_precedes_table_item_witness :
  Organize.organize_file Interp.bare_env Organize.local_caper "/out" true 3
    (Organize.OutVar (Some "${basename}") (Some "${nope}") (Some "${i}"))
    (Organize.Task "align" [("bam", "/work/xyz.bam")] [0%Z]) "/work/xyz.bam"
  = ([Organize.Copy "/work/xyz.bam" "/out/xyz.bam" true;
      Organize.GetUrl "/out/xyz.bam"],
     Raise (NameError "nope")).
Proof.
  apply (copy_precedes_table_item Interp.bare_env Organize.local_caper "/out"
           true 3
           (Organize.OutVar (Some "${basename}") (Some "${nope}") (Some "${i}"))
           (Organize.Task "align" [("bam", "/work/xyz.bam")] [0%Z])
           "/work/xyz.bam" "${basename}" "xyz.bam" "${nope}" (NameError "nope"));
    reflexivity.
Defined.

Lemma report_entries_counted_witness :
  snd (Organize.organize_output Interp.bare_env Organize.url_caper "/out" true
         Organize.pathless_def Organize.twice_nodes 3) = Ok tt /\
  List.length
    (filter Organize.is_table
       (fst (Organize.organize_output Interp.bare_env Organize.url_caper "/out"
               true Organize.pathless_def Organize.twice_nodes 3))) = 2.
Proof.
  split; [reflexivity|].
  apply (report_entries_counted Interp.bare_env Organize.url_caper "/out" true
           3 nat Organize.twice_nodes Organize.pathless_def).
  reflexivity.
Defined.

(* ================================================================== *)
(** * The mapping file *)

Lemma split_no_sep (c : ascii) (s : string) :
  Str.mem c s = false -> Tsv.split c s = [s].
Proof.
  induction s as [|d r IH]; cbn [Tsv.split Str.mem]; [reflexivity|].
  intros H. apply orb_false_iff in H as [Hd Hr]. now rewrite Hd, (IH Hr).
Qed.

Lemma split_at_sep (c : ascii) (a rest : string) :
  Str.mem c a = false ->
  Tsv.split c (a ++ String c rest) = a :: Tsv.split c rest.
Proof.
  induction a as [|d r IH]; cbn [append Tsv.split Str.mem]; intros H.
  - now rewrite Ascii.eqb_refl.
  - apply orb_false_iff in H as [Hd Hr]. now rewrite Hd, (IH Hr).
Qed.

Lemma split_length (c : ascii) (s : string) :
  List.length (Tsv.split c s) = S (Str.count c s).
Proof.
  induction s as [|d r IH]; cbn [Tsv.split Str.count]; [reflexivity|].
  destruct (Ascii.eqb d c); cbn [List.length]; [now rewrite IH|].
  destruct (Tsv.split c r) as [|h t]; cbn [List.length] in *; lia.
Qed.

Lemma cell_spec (s : string) :
  Tsv.cell s = true <->
  Str.mem Tsv.tab s = false /\ Str.mem Str.newline s = false.
Proof.
  unfold Tsv.cell. rewrite andb_true_iff, !negb_true_iff. tauto.
Qed.

Lemma split_line (kv : string * string) :
  Tsv.cell (fst kv) = true -> Tsv.cell (snd kv) = true ->
  Tsv.split Tsv.tab (Tsv.line kv) = [fst kv; snd kv].
Proof.
  intros K V. apply cell_spec in K as [K _]. apply cell_spec in V as [V _].
  unfold Tsv.line. now rewrite (split_at_sep _ _ _ K), (split_no_sep _ _ V).
Qed.

Lemma line_no_newline (kv : string * string) :
  Tsv.cell (fst kv) = true -> Tsv.cell (snd kv) = true ->
  Str.mem Str.newline (Tsv.line kv) = false.
Proof.
  intros K V. apply cell_spec in K as [_ K]. apply cell_spec in V as [_ V].
  unfold Tsv.line. rewrite mem_append. cbn [Str.mem]. now rewrite K, V.
Qed.

Lemma split_write (kvs : list (string * string)) :
  kvs <> [] ->
  forallb Tsv.cells kvs = true ->
  Tsv.split Str.newline (Tsv.write kvs) = map Tsv.line kvs.
Proof.
  induction kvs as [|kv r IH]; [congruence|]. intros _ H.
  cbn [forallb] in H. apply andb_true_iff in H as [Hkv Hr].
  apply andb_true_iff in Hkv as [K V].
  destruct r as [|kv' r'].
  - cbn [Tsv.write map]. apply split_no_sep. now apply line_no_newline.
  - change (Tsv.write (kv :: kv' :: r'))
      with (Tsv.line kv ++ String Str.newline (Tsv.write (kv' :: r'))).
    rewrite split_at_sep by now apply line_no_newline.
    cbn [map]. f_equal. apply IH; [discriminate | exact Hr].
Qed.

Lemma lstrip_id (c : ascii) (s : string) :
  Str.startswith s (String c "") = false -> Tsv.lstrip c s = s.
Proof.
  destruct s as [|d r]; [reflexivity|]. unfold Str.startswith.
  cbn [String.prefix Tsv.lstrip].
  destruct (Ascii.ascii_dec c d) as [->|N].
  - destruct r; discriminate.
  - intros _. destruct (Ascii.eqb_spec d c) as [->|_]; [now elim N | reflexivity].
Qed.

Lemma rstrip_all (n : nat) :
  Str.rstrip Str.newline (Tsv.newlines n) = "".
Proof.
  induction n as [|n IH]; [reflexivity|].
  cbn [Tsv.newlines Str.rstrip]. now rewrite IH, Ascii.eqb_refl.
Qed.

Lemma rstrip_trailing (s : string) (n : nat) :
  Str.rstrip Str.newline (s ++ Tsv.newlines n) = Str.rstrip Str.newline s.
Proof.
  induction s as [|d r IH]; cbn [append].
  - now rewrite (rstrip_all n).
  - cbn [Str.rstrip]. now rewrite IH.
Qed.

Lemma rstrip_id (c : ascii) (s : string) :
  s <> "" -> Str.endswith_char s c = false -> Str.rstrip c s = s.
Proof.
  induction s as [|d r IH]; [congruence|]. intros _ H.
  cbn [Str.rstrip]. destruct r as [|e r'].
  - cbn in H. cbn [Str.rstrip]. now rewrite H.
  - change (Str.endswith_char (String d (String e r')) c)
      with (Str.endswith_char (String e r') c) in H.
    rewrite IH by (discriminate || exact H). reflexivity.
Qed.

Lemma endswith_no_mem (c : ascii) (s : string) :
  Str.mem c s = false -> Str.endswith_char s c = false.
Proof.
  induction s as [|d r IH]; [reflexivity|]. cbn [Str.mem]. intros H.
  apply orb_false_iff in H as [Hd Hr].
  destruct r as [|e r']; [exact Hd | exact (IH Hr)].
Qed.

Lemma endswith_append (c : ascii) (a b : string) :
  b <> "" -> Str.endswith_char (a ++ b) c = Str.endswith_char b c.
Proof.
  intros NE. induction a as [|d r IH]; [reflexivity|].
  cbn [append]. destruct (r ++ b) as [|e x] eqn:X.
  - destruct r; [cbn in X; congruence | discriminate X].
  - exact IH.
Qed.

Lemma line_not_empty (kv : string * string) : Tsv.line kv <> "".
Proof. unfold Tsv.line. destruct (fst kv); discriminate. Qed.

Lemma write_not_empty (kvs : list (string * string)) :
  kvs <> [] -> Tsv.write kvs <> "".
Proof.
  destruct kvs as [|kv [|kv' r]]; [congruence | |]; intros _.
  - apply line_not_empty.
  - change (Tsv.write (kv :: kv' :: r))
      with (Tsv.line kv ++ String Str.newline (Tsv.write (kv' :: r))).
    pose proof (line_not_empty kv).
    destruct (Tsv.line kv); [congruence | discriminate].
Qed.

Lemma write_ends (kvs : list (string * string)) :
  kvs <> [] ->
  forallb Tsv.cells kvs = true ->
  Str.endswith_char (Tsv.write kvs) Str.newline = false.
Proof.
  induction kvs as [|kv r IH]; [congruence|]. intros _ H.
  cbn [forallb] in H. apply andb_true_iff in H as [Hkv Hr].
  apply andb_true_iff in Hkv as [K V].
  destruct r as [|kv' r'].
  - apply endswith_no_mem. now apply line_no_newline.
  - change (Tsv.write (kv :: kv' :: r'))
      with (Tsv.line kv ++ String Str.newline (Tsv.write (kv' :: r'))).
    rewrite endswith_append by discriminate.
    pose proof (write_not_empty (kv' :: r') ltac:(discriminate)) as NE.
    change (Str.endswith_char (String Str.newline (Tsv.write (kv' :: r')))
                              Str.newline)
      with (match Tsv.write (kv' :: r') with
            | "" => Ascii.eqb Str.newline Str.newline
            | _ => Str.endswith_char (Tsv.write (kv' :: r')) Str.newline
            end).
    destruct (Tsv.write (kv' :: r')) eqn:Wr; [congruence|].
    apply IH; [discriminate | exact Hr].
Qed.

Lemma write_starts (kvs : list (string * string)) :
  forallb Tsv.cells kvs = true ->
  Str.startswith (Tsv.write kvs) (String Str.newline "") = false.
Proof.
  unfold Str.startswith.
  destruct kvs as [|kv r]; [reflexivity|]. intros H.
  cbn [forallb] in H. apply andb_true_iff in H as [Hkv _].
  apply andb_true_iff in Hkv as [K _]. apply cell_spec in K as [_ K].
  assert (L : String.prefix (String Str.newline "") (Tsv.line kv ++ "") = false
              /\ forall x, String.prefix (String Str.newline "") (Tsv.line kv ++ x)
                           = false).
  { unfold Tsv.line. destruct (fst kv) as [|d k].
    - split; [reflexivity | intros x; reflexivity].
    - cbn [Str.mem] in K. apply orb_false_iff in K as [Kd _].
      cbn [append String.prefix].
      destruct (Ascii.ascii_dec Str.newline d) as [<-|];
        [now rewrite Ascii.eqb_refl in Kd | split; [reflexivity | reflexivity]]. }
  destruct r as [|kv' r'].
  - cbn [Tsv.write]. rewrite <- (append_empty_r (Tsv.line kv)). apply L.
  - change (Tsv.write (kv :: kv' :: r'))
      with (Tsv.line kv ++ String Str.newline (Tsv.write (kv' :: r'))).
    apply L.
Qed.

Lemma strip_write (kvs : list (string * string)) (n : nat) :
  kvs <> [] ->
  forallb Tsv.cells kvs = true ->
  Tsv.strip Str.newline (Tsv.write kvs ++ Tsv.newlines n) = Tsv.write kvs.
Proof.
  intros NE H. unfold Tsv.strip.
  rewrite lstrip_id.
  - rewrite rstrip_trailing.
    apply rstrip_id; [now apply write_not_empty | now apply write_ends].
  - pose proof (write_starts kvs H) as S0. pose proof (write_not_empty kvs NE) as W.
    unfold Str.startswith in *.
    destruct (Tsv.write kvs) as [|d w]; [congruence|].
    cbn [append String.prefix] in *.
    destruct (Ascii.ascii_dec Str.newline d); [|reflexivity].
    destruct w; discriminate S0.
Qed.

Lemma get_set (k k0 v0 : string) (d : Tsv.dict) :
  Tsv.get k (Tsv.set k0 v0 d) = if String.eqb k k0 then Some v0 else Tsv.get k d.
Proof.
  induction d as [|[k' v'] r IH]; cbn [Tsv.set Tsv.get]; [reflexivity|].
  destruct (String.eqb_spec k0 k') as [->|N]; cbn [Tsv.get].
  - now destruct (String.eqb k k').
  - rewrite IH. destruct (String.eqb_spec k k') as [->|_]; [|reflexivity].
    destruct (String.eqb_spec k' k0) as [->|_]; [now elim N | reflexivity].
Qed.

Lemma get_app (k : string) (a b : Tsv.dict) :
  Tsv.get k (a ++ b)%list = match Tsv.get k a with
                       | Some v => Some v
                       | None => Tsv.get k b
                       end.
Proof.
  induction a as [|[k' v'] r IH]; cbn [app Tsv.get]; [reflexivity|].
  now destruct (String.eqb k k').
Qed.

Lemma set_new (k v : string) (d : Tsv.dict) :
  ~ In k (map fst d) -> Tsv.set k v d = (d ++ [(k, v)])%list.
Proof.
  induction d as [|[k' v'] r IH]; cbn [Tsv.set map fst In app]; [reflexivity|].
  intros H. destruct (String.eqb_spec k k') as [->|_]; [elim H; now left|].
  rewrite IH; [reflexivity|]. intros K. apply H. now right.
Qed.

Lemma read_lines_written (kvs : list (string * string)) : forall d,
  forallb Tsv.cells kvs = true ->
  Tsv.read_lines (map Tsv.line kvs) d = Some (Tsv.assign_all kvs d).
Proof.
  induction kvs as [|kv r IH]; intros d H; [reflexivity|].
  cbn [forallb] in H. apply andb_true_iff in H as [Hkv Hr].
  apply andb_true_iff in Hkv as [K V].
  cbn [map Tsv.read_lines]. rewrite (split_line kv K V). now apply IH.
Qed.

Lemma get_assign_all (k : string) (kvs : list (string * string)) : forall d,
  Tsv.get k (Tsv.assign_all kvs d) =
  match Tsv.get k (rev kvs) with
  | Some v => Some v
  | None => Tsv.get k d
  end.
Proof.
  unfold Tsv.assign_all.
  induction kvs as [|[k0 v0] r IH]; intros d; [reflexivity|].
  cbn [fold_left rev fst snd]. rewrite IH, get_app, get_set. cbn [Tsv.get].
  destruct (Tsv.get k (rev r)); [reflexivity|].
  now destruct (String.eqb k k0).
Qed.

Lemma assign_all_new (kvs : list (string * string)) : forall d,
  NoDup (map fst kvs) ->
  (forall k, In k (map fst kvs) -> ~ In k (map fst d)) ->
  Tsv.assign_all kvs d = (d ++ kvs)%list.
Proof.
  unfold Tsv.assign_all.
  induction kvs as [|[k0 v0] r IH]; intros d ND Fresh;
    [now rewrite app_nil_r|].
  cbn [map fst] in ND. inversion ND as [|? ? N0 ND']. subst.
  cbn [fold_left fst snd].
  rewrite set_new by (apply Fresh; now left).
  rewrite IH; [now rewrite <- app_assoc | exact ND'|].
  intros k Hk Hin. rewrite map_app in Hin. apply in_app_or in Hin as [Hin|Hin].
  - apply (Fresh k); [now right | exact Hin].
  - cbn in Hin. destruct Hin as [<-|[]]. now apply N0.
Qed.

(** X10.  A mapping file that has one line [path <tab> url] for each pair of
    a list that is not empty, the paths and URLs having no tab and no
    newline, followed by any number of empty lines, is read back as a
    mapping in which every path has the URL of its last line; it is the list
    itself when no path is repeated. *)
Theorem mapping_file_round_trip (kvs : list (string * string)) (n : nat) :
  kvs <> [] ->
  forallb Tsv.cells kvs = true ->
  exists mapping,
    Tsv.read (Tsv.write kvs ++ Tsv.newlines n) = Some mapping /\
    (forall k, Tsv.get k mapping = Tsv.get k (rev kvs)) /\
    (NoDup (map fst kvs) -> mapping = kvs).
Proof.
  intros NE H. exists (Tsv.assign_all kvs []).
  unfold Tsv.read. rewrite (strip_write kvs n NE H), (split_write kvs NE H).
  split; [now apply read_lines_written|]. split.
  - intros k. rewrite get_assign_all. now destruct (Tsv.get k (rev kvs)).
  - intros ND. apply (assign_all_new kvs [] ND). now intros k _ [].
Qed.

Lemma mapping_file_round_trip_witness :
  [("/out/a.bam", "http://host/a.bam"); ("/out/b.bam", "http://host/b.bam")] <> [] /\
  exists mapping,
    Tsv.read (Tsv.write [("/out/a.bam", "http://host/a.bam");
                         ("/out/b.bam", "http://host/b.bam")]
              ++ Tsv.newlines 2) = Some mapping /\
    (forall k, Tsv.get k mapping
               = Tsv.get k (rev [("/out/a.bam", "http://host/a.bam");
                                 ("/out/b.bam", "http://host/b.bam")])) /\
    (NoDup (map fst [("/out/a.bam", "http://host/a.bam");
                     ("/out/b.bam", "http://host/b.bam")]) ->
     mapping = [("/out/a.bam", "http://host/a.bam");
                ("/out/b.bam", "http://host/b.bam")]).
Proof.
  split; [discriminate|].
  apply (mapping_file_round_trip
           [("/out/a.bam", "http://host/a.bam"); ("/out/b.bam", "http://host/b.bam")]
           2); [discriminate | reflexivity].
Defined.

Lemma read_lines_none (lines : list string) : forall d,
  Tsv.read_lines lines d = None <->
  exists l, In l lines /\ Str.count Tsv.tab l <> 1.
Proof.
  induction lines as [|l r IH]; intros d; cbn [Tsv.read_lines].
  - split; [discriminate | intros (l & [] & _)].
  - pose proof (split_length Tsv.tab l) as Len.
    destruct (Tsv.split Tsv.tab l) as [|k [|v [|w t]]]; cbn [List.length] in Len.
    + discriminate Len.
    + split; [intros _; exists l; split; [now left | lia] | reflexivity].
    + rewrite IH. split.
      * intros (x & Hx & Cx). exists x. split; [now right | exact Cx].
      * intros (x & [<-|Hx] & Cx); [lia|]. now exists x.
    + split; [intros _; exists l; split; [now left | lia] | reflexivity].
Qed.

(** X11.  Reading a mapping file fails exactly when one of its lines, once
    the newlines at both ends of the text are removed, does not have
    exactly one tab; in particular it fails for an empty file and for a file
    of empty lines. *)
Theorem mapping_file_is_refused_iff (text : string) :
  (Tsv.read text = None <->
   exists l,
     In l (Tsv.split Str.newline (Tsv.strip Str.newline text)) /\
     Str.count Tsv.tab l <> 1) /\
  forall n, Tsv.read (Tsv.newlines n) = None.
Proof.
  split; [apply read_lines_none|].
  intros n. apply read_lines_none. exists "".
  unfold Tsv.strip.
  assert (L : Tsv.lstrip Str.newline (Tsv.newlines n) = "").
  { induction n as [|n IH]; [reflexivity|].
    cbn [Tsv.newlines Tsv.lstrip]. now rewrite Ascii.eqb_refl. }
  rewrite L. cbn. split; [now left | discriminate].
Qed.

(* ================================================================== *)
(** * [init_dirs_args], [Croo.__init__] and [main] *)

Section CliFacts.

Import Cli.

Variables doc node : Type.
Variable W : world doc node.

(** The output directory and the temporary directory the function settles
    on. *)
Let settled_out (a : args) : string :=
  if is_bucket (out_dir a) then out_dir a
  else abspath W (expanduser W (out_dir a)).

Let settled_tmp (a : args) : string :=
  match tmp_dir a with
  | Some t => t
  | None =>
      Path.join (if is_bucket (out_dir a) then getcwd W else settled_out a)
                ".croo_tmp"
  end.

Lemma init_dirs_args_shape (a : args) :
  is_url (out_dir a) = false ->
  init_dirs_args W a =
  let pre := if is_bucket (out_dir a) then [] else [Makedirs (settled_out a)] in
  let a1 := Args (settled_out a) (Some (settled_tmp a))
                 (tsv_mapping_path_to_url a) (metadata_json a)
                 (out_def_json a) (method a) in
  match tsv_mapping_path_to_url a with
  | None =>
      ((pre ++ [Makedirs (settled_tmp a); InitCaperUri (settled_tmp a) None])%list,
       Done a1)
  | Some path =>
      match Tsv.read (read_text W (expanduser W path)) with
      | Some mapping =>
          ((pre ++ [Makedirs (settled_tmp a);
                    InitCaperUri (settled_tmp a) (Some mapping)])%list,
           Done a1)
      | None =>
          ((pre ++ [Makedirs (settled_tmp a)])%list,
           Failed (ValueError unpack_error))
      end
  end.
Proof.
  intros U. unfold init_dirs_args, settled_tmp, settled_out. rewrite U.
  destruct a as [o t ts m od me]. cbn [out_dir tmp_dir tsv_mapping_path_to_url
    metadata_json out_def_json method].
  unfold read_mapping, with_tmp_dir, tmp_dir_or, with_out_dir.
  destruct (is_bucket o); destruct t as [t|]; destruct ts as [path|];
    unfold bind, ret, emit, fail;
    cbn [out_dir tmp_dir tsv_mapping_path_to_url metadata_json out_def_json
         method fst snd app];
    try destruct (Tsv.read (read_text W (expanduser W path)));
    reflexivity.
Qed.

(** X12.  An output directory that is an [http://] or [https://] URL is
    refused with a [ValueError] before anything is done: no directory is
    made, [CaperURI] is not set up, and [main] stops there. *)
Theorem url_out_dir_is_refused (a : args) (fuel : nat) :
  is_url (out_dir a) = true ->
  init_dirs_args W a = ([], Failed (ValueError url_not_allowed)) /\
  main W fuel a = ([], Failed (ValueError url_not_allowed)).
Proof.
  intros U. assert (I : init_dirs_args W a = ([], Failed (ValueError url_not_allowed))).
  { unfold init_dirs_args. now rewrite U. }
  split; [exact I|]. unfold main. now rewrite I.
Qed.

(** X13.  When [init_dirs_args] returns, [args] has a temporary directory:
    the one given when one was given, and otherwise [.croo_tmp] under the
    current directory for a bucket and under the output directory for a
    local one; that directory is made and then passed to [init_caper_uri],
    as the last two calls; the other keys are as they were. *)
Theorem tmp_dir_is_settled (a a' : args) (calls : list event) :
  init_dirs_args W a = (calls, Done a') ->
  exists tmp mapping before,
    tmp_dir a' = Some tmp /\
    (forall t, tmp_dir a = Some t -> tmp = t) /\
    (tmp_dir a = None ->
     tmp = Path.join (if is_bucket (out_dir a) then getcwd W else out_dir a')
                     ".croo_tmp") /\
    calls = (before ++ [Makedirs tmp; InitCaperUri tmp mapping])%list /\
    tsv_mapping_path_to_url a' = tsv_mapping_path_to_url a /\
    metadata_json a' = metadata_json a /\
    out_def_json a' = out_def_json a /\
    method a' = method a.
Proof.
  intros H. destruct (is_url (out_dir a)) eqn:U.
  { unfold init_dirs_args in H. rewrite U in H. discriminate H. }
  rewrite (init_dirs_args_shape a U) in H. cbv zeta in H.
  assert (T : (forall t, tmp_dir a = Some t -> settled_tmp a = t) /\
              (tmp_dir a = None ->
               settled_tmp a
               = Path.join (if is_bucket (out_dir a) then getcwd W
                            else settled_out a) ".croo_tmp")).
  { unfold settled_tmp. destruct (tmp_dir a); split; congruence. }
  destruct T as [T1 T2].
  destruct (tsv_mapping_path_to_url a) as [path|] eqn:Ts;
    [destruct (Tsv.read (read_text W (expanduser W path))) as [mapping|]|];
    try discriminate H; injection H as <- <-;
    eexists (settled_tmp a), _, _; cbn [tmp_dir tsv_mapping_path_to_url
      metadata_json out_def_json method out_dir];
    (repeat split; [exact T1|]);
    intros N; rewrite (T2 N); unfold settled_out;
    now destruct (is_bucket (out_dir a)).
Qed.

(** X14.  When [init_dirs_args] returns for a bucket ([gs://] or [s3://]),
    the output directory is as it was and is not made: only the temporary
    directory is.  For a local output directory, the output directory
    becomes its absolute path with the home directory expanded, it is made
    first, and the temporary directory chosen when none was given lies
    under it. *)
Theorem out_dir_is_settled (a a' : args) (calls : list event) :
  init_dirs_args W a = (calls, Done a') ->
  (is_bucket (out_dir a) = true ->
   out_dir a' = out_dir a /\
   exists tmp mapping, calls = [Makedirs tmp; InitCaperUri tmp mapping]) /\
  (is_bucket (out_dir a) = false ->
   out_dir a' = abspath W (expanduser W (out_dir a)) /\
   (exists tmp mapping,
      calls = [Makedirs (out_dir a'); Makedirs tmp; InitCaperUri tmp mapping]) /\
   (tmp_dir a = None ->
    exists tmp, tmp_dir a' = Some tmp /\ String.prefix (out_dir a') tmp = true)).
Proof.
  intros H. destruct (is_url (out_dir a)) eqn:U.
  { unfold init_dirs_args in H. rewrite U in H. discriminate H. }
  rewrite (init_dirs_args_shape a U) in H. cbv zeta in H.
  unfold settled_tmp, settled_out in H.
  destruct (tsv_mapping_path_to_url a) as [path|];
    [destruct (Tsv.read (read_text W (expanduser W path))) as [mapping|]|];
    try discriminate H; injection H as <- <-; cbn [out_dir tmp_dir];
    (split; intros B; rewrite B; cbn [app];
     [split; [reflexivity | eauto]|]);
    (split; [reflexivity|]); (split; [eauto|]);
    intros N; rewrite N; eexists; (split; [reflexivity|]);
    unfold Path.join; cbn [Str.startswith String.prefix];
    destruct ((abspath W (expanduser W (out_dir a)) =? "")
              || Str.endswith_char (abspath W (expanduser W (out_dir a))) Str.slash);
    apply prefix_append.
Qed.

(** X15.  When the mapping file is refused, [init_dirs_args] raises a
    [ValueError] after the directories have been made and before [CaperURI]
    is set up: the directories stay, and [init_caper_uri] is not called. *)
Theorem bad_mapping_file_stops_after_makedirs (a : args) (path : string) :
  is_url (out_dir a) = false ->
  tsv_mapping_path_to_url a = Some path ->
  Tsv.read (read_text W (expanduser W path)) = None ->
  snd (init_dirs_args W a) = Failed (ValueError unpack_error) /\
  (exists before tmp, fst (init_dirs_args W a) = (before ++ [Makedirs tmp])%list) /\
  forall tmp mapping, ~ In (InitCaperUri tmp mapping) (fst (init_dirs_args W a)).
Proof.
  intros U Ts Rd. rewrite (init_dirs_args_shape a U), Ts, Rd. cbv zeta.
  cbn [fst snd]. split; [reflexivity|]. split; [eauto|].
  intros tmp mapping H. apply in_app_or in H as [H|[H|[]]]; [|discriminate H].
  destruct (is_bucket (out_dir a)); [destruct H|].
  destruct H as [H|[]]. discriminate H.
Qed.

End CliFacts.

Lemma url_out_dir_is_refused_witness :
  Cli.is_url "https://host/out" = true /\
  Cli.main Cli.example_world 3
    (Cli.Args "https://host/out" None None "metadata.json" None "link")
  = ([], Cli.Failed (Cli.ValueError Cli.url_not_allowed)).
Proof.
  split; [reflexivity|].
  apply (url_out_dir_is_refused unit nat Cli.example_world
           (Cli.Args "https://host/out" None None "metadata.json" None "link") 3).
  reflexivity.
Defined.

Lemma tmp_dir_is_settled_witness :
  Cli.init_dirs_args Cli.example_world
    (Cli.Args "gs://bucket/out" (Some "/scratch") None "metadata.json" None "copy")
  = ([Cli.Makedirs "/scratch"; Cli.InitCaperUri "/scratch" None],
     Cli.Done (Cli.Args "gs://bucket/out" (Some "/scratch") None "metadata.json"
                        None "copy")) /\
  exists tmp mapping before,
    Some "/scratch" = Some tmp /\
    (forall t, Some "/scratch" = Some t -> tmp = t) /\
    (Some "/scratch" = None -> tmp = Path.join "/cwd" ".croo_tmp") /\
    [Cli.Makedirs "/scratch"; Cli.InitCaperUri "/scratch" None]
    = (before ++ [Cli.Makedirs tmp; Cli.InitCaperUri tmp mapping])%list /\
    @None string = None /\ "metadata.json" = "metadata.json" /\
    @None string = None /\ "copy" = "copy".
Proof.
  split; [reflexivity|].
  apply (tmp_dir_is_settled unit nat Cli.example_world
           (Cli.Args "gs://bucket/out" (Some "/scratch") None "metadata.json"
                     None "copy")
           (Cli.Args "gs://bucket/out" (Some "/scratch") None "metadata.json"
                     None "copy")
           [Cli.Makedirs "/scratch"; Cli.InitCaperUri "/scratch" None]).
  reflexivity.
Defined.

Lemma out_dir_is_settled_witness :
  Cli.init_dirs_args Cli.example_world Cli.example_args
  = ([Cli.Makedirs "/cwd/out"; Cli.Makedirs "/cwd/out/.croo_tmp";
      Cli.InitCaperUri "/cwd/out/.croo_tmp" None],
     Cli.Done (Cli.Args "/cwd/out" (Some "/cwd/out/.croo_tmp") None
                        "metadata.json" (Some "out_def.json") "link")) /\
  exists tmp, Some "/cwd/out/.croo_tmp" = Some tmp /\
              String.prefix "/cwd/out" tmp = true.
Proof.
  split; [reflexivity|].
  apply (proj2 (out_dir_is_settled unit nat Cli.example_world Cli.example_args
                  (Cli.Args "/cwd/out" (Some "/cwd/out/.croo_tmp") None
                            "metadata.json" (Some "out_def.json") "link")
                  [Cli.Makedirs "/cwd/out"; Cli.Makedirs "/cwd/out/.croo_tmp";
                   Cli.InitCaperUri "/cwd/out/.croo_tmp" None]
                  eq_refl) eq_refl); reflexivity.
Defined.

Lemma bad_mapping_file_stops_after_makedirs_witness :
  Tsv.read "no tab here" = None /\
  snd (Cli.init_dirs_args
         (Cli.World "/cwd" (fun s => s) (fun s => "/cwd/" ++ s)
                    (fun _ => "no tab here") (fun _ => Cli.Many [tt])
                    (fun _ => Organize.example_def) (fun _ => None)
                    (fun _ => Organize.example_nodes) Interp.bare_env
                    Organize.local_caper)
         (Cli.Args "out" None (Some "map.tsv") "metadata.json" None "link"))
  = Cli.Failed (Cli.ValueError Cli.unpack_error).
Proof.
  split; [reflexivity|].
  apply (bad_mapping_file_stops_after_makedirs unit nat
           (Cli.World "/cwd" (fun s => s) (fun s => "/cwd/" ++ s)
                      (fun _ => "no tab here") (fun _ => Cli.Many [tt])
                      (fun _ => Organize.example_def) (fun _ => None)
                      (fun _ => Organize.example_nodes) Interp.bare_env
                      Organize.local_caper)
           (Cli.Args "out" None (Some "map.tsv") "metadata.json" None "link")
           "map.tsv"); reflexivity.
Defined.

Section InitFacts.

Import Cli.

Variables doc node : Type.
Variable W : world doc node.

Lemma init_of_dict (d : doc) (od : out_def_arg) (out : string) (soft : bool) :
  init W (MetadataDict d) od out soft =
  match od with
  | OutDefDict x => ([], Done (Croo d out x (get_task_graph W d) soft))
  | OutDefFile uri =>
      ([], Done (Croo d out (load_out_def W uri) (get_task_graph W d) soft))
  | OutDefNone =>
      match get_out_def_json_file W d with
      | Some uri =>
          ([], Done (Croo d out (load_out_def W uri) (get_task_graph W d) soft))
      | None => ([], Failed (ValueError out_def_undefined))
      end
  end.
Proof.
  unfold init, init_metadata, init_out_def, bind, ret, fail.
  destruct od as [x|uri|]; try reflexivity.
  now destruct (get_out_def_json_file W d).
Qed.

Lemma init_of_file (uri : string) (od : out_def_arg) (out : string)
    (soft : bool) :
  init W (MetadataFile doc uri) od out soft =
  match load_metadata W uri with
  | One d => init W (MetadataDict d) od out soft
  | Many [] => ([], Failed (Exception metadata_empty))
  | Many [d] => init W (MetadataDict d) od out soft
  | Many (d :: _ :: _) =>
      (Print multiple_metadata :: fst (init W (MetadataDict d) od out soft),
       snd (init W (MetadataDict d) od out soft))
  end.
Proof.
  unfold init, init_metadata.
  destruct (load_metadata W uri) as [d|[|d [|d' r]]]; try reflexivity.
  unfold init_out_def, bind, emit, ret, fail.
  destruct od as [x|u|]; [reflexivity | reflexivity|].
  now destruct (get_out_def_json_file W d).
Qed.

(** X16.  A metadata file that holds a list is taken for its first
    document: the object built is the one built from that document given as
    a [dict], and a warning is printed first when the list has more than one
    document.  An empty list raises an exception, and the output definition
    is not looked for. *)
Theorem metadata_list_gives_its_first (uri : string) (od : out_def_arg)
    (out : string) (soft : bool) :
  (load_metadata W uri = Many [] ->
   init W (MetadataFile doc uri) od out soft
   = ([], Failed (Exception metadata_empty))) /\
  (forall d rest,
     load_metadata W uri = Many (d :: rest) ->
     init W (MetadataFile doc uri) od out soft =
     ((match rest with [] => [] | _ :: _ => [Print multiple_metadata] end
       ++ fst (init W (MetadataDict d) od out soft))%list,
      snd (init W (MetadataDict d) od out soft))).
Proof.
  split.
  - intros L. now rewrite init_of_file, L.
  - intros d rest L. rewrite init_of_file, L.
    destruct rest as [|d' r]; [|reflexivity].
    now destruct (init W (MetadataDict d) od out soft).
Qed.

(** X17.  The object [Croo.__init__] builds has the output directory and
    the link flag it was given, and the task graph of its metadata.  An
    output definition given as a [dict] or as a file is used, whatever the
    workflow names; the one the workflow names is used only when none is
    given. *)
Theorem init_keeps_what_it_is_given (md : metadata_arg doc) (od : out_def_arg)
    (out : string) (soft : bool) (calls : list event) (co : croo doc node) :
  init W md od out soft = (calls, Done co) ->
  _out_dir co = out /\
  _soft_link co = soft /\
  _task_graph co = get_task_graph W (_metadata co) /\
  (forall d, md = MetadataDict d -> _metadata co = d /\ calls = []) /\
  match od with
  | OutDefDict x => _out_def_json co = x
  | OutDefFile u => _out_def_json co = load_out_def W u
  | OutDefNone =>
      exists u, get_out_def_json_file W (_metadata co) = Some u /\
                _out_def_json co = load_out_def W u
  end.
Proof.
  assert (D : forall d calls0,
             init W (MetadataDict d) od out soft = (calls0, Done co) ->
             calls0 = [] /\ _metadata co = d /\ _out_dir co = out /\
             _soft_link co = soft /\
             _task_graph co = get_task_graph W (_metadata co) /\
             match od with
             | OutDefDict x => _out_def_json co = x
             | OutDefFile u => _out_def_json co = load_out_def W u
             | OutDefNone =>
                 exists u, get_out_def_json_file W (_metadata co) = Some u /\
                           _out_def_json co = load_out_def W u
             end).
  { intros d calls0. rewrite init_of_dict.
    destruct od as [x|u|]; [| |destruct (get_out_def_json_file W d) as [u|] eqn:G];
      intros [= <- <-]; cbn; repeat split; eauto. }
  destruct md as [d|uri]; intros H.
  - destruct (D d calls H) as (-> & Hm & Ho & Hs & Hg & Hd).
    repeat split; try assumption; congruence.
  - rewrite init_of_file in H.
    destruct (load_metadata W uri) as [d|[|d [|d' r]]]; try discriminate H.
    + destruct (D d calls H) as (_ & _ & Ho & Hs & Hg & Hd).
      repeat split; try assumption; congruence.
    + destruct (D d calls H) as (_ & _ & Ho & Hs & Hg & Hd).
      repeat split; try assumption; congruence.
    + injection H as <- H.
      destruct (init W (MetadataDict d) od out soft) as [c0 r0] eqn:I.
      cbn [snd] in H. subst r0.
      destruct (D d c0 I) as (_ & _ & Ho & Hs & Hg & Hd).
      repeat split; try assumption; congruence.
Qed.

(** X18.  The two exceptions [Croo.__init__] raises itself.  It raises
    the exception for an empty metadata file exactly when the metadata is
    given as a file that holds an empty list, and nothing is printed
    before.  It raises the [ValueError] for an undefined output definition
    exactly when no output definition is given and the workflow of the
    metadata document it has taken names none.  (The failures of reading
    or parsing a file are not those of [__init__] and are outside the
    model.) *)
Theorem init_raises_its_own_errors_iff (md : metadata_arg doc)
    (od : out_def_arg) (out : string) (soft : bool) (calls : list event) :
  (init W md od out soft = (calls, Failed (Exception metadata_empty)) <->
   calls = [] /\
   exists uri, md = MetadataFile doc uri /\ load_metadata W uri = Many []) /\
  (init W md od out soft = (calls, Failed (ValueError out_def_undefined)) <->
   od = OutDefNone /\
   exists d, init_metadata W md = (calls, Done d) /\
             get_out_def_json_file W d = None).
Proof.
  assert (D : forall d,
             init W (MetadataDict d) od out soft
             = ([], Failed (ValueError out_def_undefined)) /\
             od = OutDefNone /\ get_out_def_json_file W d = None \/
             exists co, init W (MetadataDict d) od out soft = ([], Done co) /\
                        (od = OutDefNone -> get_out_def_json_file W d <> None)).
  { intros d. rewrite init_of_dict.
    destruct od as [x|u|]; [| |destruct (get_out_def_json_file W d) as [u|]];
      try (right; eexists; split; [reflexivity | discriminate]).
    now left. }
  split; split.
  - destruct md as [d|uri]; intros H.
    + destruct (D d) as [(I & _)|(co & I & _)]; rewrite I in H; discriminate.
    + rewrite init_of_file in H.
      destruct (load_metadata W uri) as [d|[|d [|d' r]]] eqn:L;
        try (destruct (D d) as [(I & _)|(co & I & _)]; rewrite I in H;
             discriminate).
      injection H as <-. split; [reflexivity|]. now exists uri.
  - intros (-> & uri & -> & L). now rewrite init_of_file, L.
  - destruct md as [d|uri]; intros H.
    + destruct (D d) as [(I & O & G)|(co & I & _)]; rewrite I in H;
        [|discriminate].
      injection H as <-. split; [exact O|]. now exists d.
    + rewrite init_of_file in H. unfold init_metadata.
      destruct (load_metadata W uri) as [d|[|d [|d' r]]] eqn:L;
        try discriminate;
        (destruct (D d) as [(I & O & G)|(co & I & _)]; rewrite I in H;
         [|discriminate]);
        injection H as <-; (split; [exact O|]); now exists d.
  - intros (O & d & I & G). unfold init. rewrite I.
    unfold bind, init_out_def. rewrite O, G. unfold fail. cbn.
    now rewrite app_nil_r.
Qed.

End InitFacts.

Section MainFacts.

Import Cli.

Variables doc node : Type.
Variable W : world doc node.

Let settled (a : args) : string :=
  if is_bucket (out_dir a) then out_dir a
  else abspath W (expanduser W (out_dir a)).

Lemma main_shape (fuel : nat) (a : args) :
  main W fuel a =
  match init_dirs_args W a with
  | (t1, Failed f) => (t1, Failed f)
  | (t1, Done a1) =>
      match init W (MetadataFile doc (metadata_json a1))
                 (match out_def_json a1 with
                  | Some uri => OutDefFile uri
                  | None => OutDefNone
                  end)
                 (out_dir a1) (String.eqb (method a1) "link") with
      | (t2, Failed f) => ((t1 ++ t2)%list, Failed f)
      | (t2, Done co) =>
          let run := Organize.organize_output (py W) (caper_uri W) (_out_dir co)
                       (_soft_link co) (_out_def_json co) (_task_graph co) fuel in
          ((t1 ++ t2 ++ map Organized (fst run))%list,
           match snd run with
           | Ok _ => Done 0%Z
           | Raise e => Failed (Raised e)
           | OutOfFuel => Failed Unfinished
           end)
      end
  end.
Proof.
  unfold main. destruct (init_dirs_args W a) as [t1 [a1|f]]; [|reflexivity].
  unfold bind at 1.
  destruct (init W (MetadataFile doc (metadata_json a1))
              (match out_def_json a1 with
               | Some uri => OutDefFile uri
               | None => OutDefNone
               end)
              (out_dir a1) (String.eqb (method a1) "link")) as [t2 [co|f]];
    [|reflexivity].
  unfold bind, organized, ret. cbv zeta.
  destruct (Organize.organize_output (py W) (caper_uri W) (_out_dir co)
              (_soft_link co) (_out_def_json co) (_task_graph co) fuel)
    as [t3 [[]|e|]]; cbn [fst snd]; rewrite ?app_nil_r; reflexivity.
Qed.

Lemma init_dirs_args_done (a a1 : args) (t1 : list event) :
  init_dirs_args W a = (t1, Done a1) ->
  out_dir a1 = settled a /\ method a1 = method a.
Proof.
  intros H. destruct (is_url (out_dir a)) eqn:U.
  { unfold init_dirs_args in H. rewrite U in H. discriminate H. }
  rewrite (init_dirs_args_shape doc node W a U) in H. cbv zeta in H.
  destruct (tsv_mapping_path_to_url a) as [path|];
    [destruct (Tsv.read (read_text W (expanduser W path)))|];
    try discriminate H; injection H as _ <-; split; reflexivity.
Qed.

Lemma init_dirs_args_events (a : args) (e : event) :
  In e (fst (init_dirs_args W a)) ->
  (exists p, e = Makedirs p) \/ exists t m, e = InitCaperUri t m.
Proof.
  destruct (is_url (out_dir a)) eqn:U.
  { unfold init_dirs_args. rewrite U. intros []. }
  rewrite (init_dirs_args_shape doc node W a U). cbv zeta.
  destruct (tsv_mapping_path_to_url a) as [path|];
    [destruct (Tsv.read (read_text W (expanduser W path)))|];
    destruct (is_bucket (out_dir a)); cbn [fst app In]; intros H;
    repeat (destruct H as [<-|H]; [eauto|]); destruct H.
Qed.

Lemma init_events (md : metadata_arg doc) (od : out_def_arg) (out : string)
    (soft : bool) (e : event) :
  In e (fst (init W md od out soft)) -> e = Print multiple_metadata.
Proof.
  assert (D : forall d, fst (init W (MetadataDict d) od out soft) = []).
  { intros d. rewrite init_of_dict.
    destruct od; [| |destruct (get_out_def_json_file W d)]; reflexivity. }
  destruct md as [d|uri]; [now rewrite D|].
  rewrite init_of_file.
  destruct (load_metadata W uri) as [d|[|d [|d' r]]]; cbn [fst]; rewrite ?D;
    intros H; cbn [In] in H; try contradiction.
  destruct H as [<-|[]]. reflexivity.
Qed.

Lemma init_done (md : metadata_arg doc) (od : out_def_arg) (out : string)
    (soft : bool) (t2 : list event) (co : croo doc node) :
  init W md od out soft = (t2, Done co) ->
  _out_dir co = out /\ _soft_link co = soft.
Proof.
  assert (D : forall d c0,
             init W (MetadataDict d) od out soft = (c0, Done co) ->
             _out_dir co = out /\ _soft_link co = soft).
  { intros d c0. rewrite init_of_dict.
    destruct od; [| |destruct (get_out_def_json_file W d)];
      intros [= <- <-]; split; reflexivity. }
  destruct md as [d|uri]; [apply D|].
  rewrite init_of_file.
  destruct (load_metadata W uri) as [d|[|d [|d' r]]]; try discriminate;
    try apply D.
  intros [= _ H]. destruct (init W (MetadataDict d) od out soft) as [c0 r0] eqn:I.
  cbn [snd] in H. subst r0. exact (D d c0 I).
Qed.

Lemma init_dirs_args_keeps (a a1 : args) (t1 : list event) :
  init_dirs_args W a = (t1, Done a1) ->
  metadata_json a1 = metadata_json a /\ out_def_json a1 = out_def_json a.
Proof.
  intros H. destruct (is_url (out_dir a)) eqn:U.
  { unfold init_dirs_args in H. rewrite U in H. discriminate H. }
  rewrite (init_dirs_args_shape doc node W a U) in H. cbv zeta in H.
  destruct (tsv_mapping_path_to_url a) as [path|];
    [destruct (Tsv.read (read_text W (expanduser W path)))|];
    try discriminate H; injection H as _ <-;
    destruct (is_bucket (out_dir a)); unfold with_tmp_dir; cbn [fst snd];
    destruct (tmp_dir a); split; reflexivity.
Qed.

(** X19.  Every copy [main] asks for carries the link flag [method ==
    'link'], and is the copy of a file matched by the output definition
    and the task graph of the object [Croo.__init__] has built for the
    output directory as [init_dirs_args] left it (the directory given for a
    bucket, its absolute path for a local directory).  Its target is the
    interpreter's result for the [path] template of the match, joined onto
    that directory: a target under the directory when the result is a
    relative path, the result itself when it is absolute. *)
Theorem main_copies_into_the_settled_out_dir (fuel : nat) (a : args)
    (source target : string) (flag : bool) :
  In (Organized (Organize.Copy source target flag)) (fst (main W fuel a)) ->
  flag = String.eqb (method a) "link" /\
  exists calls co ov t p ip,
    init W (MetadataFile doc (metadata_json a))
         (match out_def_json a with
          | Some uri => OutDefFile uri
          | None => OutDefNone
          end)
         (settled a) (String.eqb (method a) "link") = (calls, Done co) /\
    In (ov, t, source) (Organize.matches (_out_def_json co) (_task_graph co)) /\
    Organize.path ov = Some p /\
    Interp.interpret_inline_exp (py W) fuel p source (Organize.shard_idx t)
    = Ok ip /\
    target = Path.join (settled a) ip /\
    (Str.startswith ip "/" = false -> String.prefix (settled a) target = true) /\
    (Str.startswith ip "/" = true -> target = ip).
Proof.
  rewrite main_shape.
  destruct (init_dirs_args W a) as [t1 [a1|f]] eqn:I1.
  - assert (E1 : forall e, In e t1 ->
                 (exists p, e = Makedirs p) \/ exists t m, e = InitCaperUri t m).
    { intros e He. apply (init_dirs_args_events a). now rewrite I1. }
    destruct (init_dirs_args_done a a1 t1 I1) as [Ho Hm].
    destruct (init_dirs_args_keeps a a1 t1 I1) as [Hj Hd].
    rewrite Ho, Hm, Hj, Hd.
    destruct (init W (MetadataFile doc (metadata_json a))
                (match out_def_json a with
                 | Some uri => OutDefFile uri
                 | None => OutDefNone
                 end)
                (settled a) (String.eqb (method a) "link")) as [t2 [co|f]] eqn:I2.
    + destruct (init_done _ _ _ _ t2 co I2) as [Co Cs]. cbv zeta. cbn [fst].
      assert (E2 : forall e, In e t2 -> e = Print multiple_metadata).
      { intros e He. eapply init_events. rewrite I2. exact He. }
      intros H. apply in_app_or in H as [H|H];
        [destruct (E1 _ H) as [(p & K)|(t & m & K)]; discriminate K|].
      apply in_app_or in H as [H|H]; [now apply E2 in H|].
      apply in_map_iff in H as (c & Hc & H). injection Hc as ->.
      apply in_organize_output in H as [[H _]|([[ov t] f] & M & H)];
        [discriminate H|].
      cbn [Organize.organize_match] in H.
      apply organize_file_call in H as [(p & ip & P & I & H)|[H|[H|H]]];
        try discriminate H.
      injection H as <- -> ->. rewrite Co, Cs. split; [reflexivity|].
      exists t2, co, ov, t, p, ip.
      repeat split; try assumption.
      * intros S0. unfold Path.join. rewrite S0.
        destruct ((settled a =? "") || Str.endswith_char (settled a) Str.slash);
          apply prefix_append.
      * intros S0. unfold Path.join. now rewrite S0.
    + cbn [fst]. intros H. apply in_app_or in H as [H|H].
      * destruct (E1 _ H) as [(p & K)|(t & m & K)]; discriminate K.
      * assert (K : Organized (Organize.Copy source target flag)
                    = Print multiple_metadata)
          by (eapply init_events; rewrite I2; exact H).
        discriminate K.
  - cbn [fst]. intros H.
    assert (K : (exists p, Organized (Organize.Copy source target flag) = Makedirs p)
                \/ exists t m, Organized (Organize.Copy source target flag)
                               = InitCaperUri t m).
    { apply (init_dirs_args_events a). now rewrite I1. }
    destruct K as [(p & K)|(t & m & K)]; discriminate K.
Qed.

(** X20.  [main] returns only the value 0, and only when everything before
    has completed: the directories are settled, the object is built, and
    the last call made is the saving of the report. *)
Theorem main_returns_zero_after_saving (fuel : nat) (a : args) (z : Z) :
  snd (main W fuel a) = Done z ->
  z = 0%Z /\
  is_url (out_dir a) = false /\
  exists before,
    fst (main W fuel a) = (before ++ [Organized Organize.SaveToFile])%list.
Proof.
  rewrite main_shape.
  destruct (is_url (out_dir a)) eqn:U.
  { unfold init_dirs_args. rewrite U. discriminate. }
  destruct (init_dirs_args W a) as [t1 [a1|f]]; [|discriminate].
  destruct (init W (MetadataFile doc (metadata_json a1))
              (match out_def_json a1 with
               | Some uri => OutDefFile uri
               | None => OutDefNone
               end)
              (out_dir a1) (String.eqb (method a1) "link")) as [t2 [co|f]];
    [|discriminate].
  cbv zeta. cbn [fst snd].
  pose proof (organize_output_completes (py W) (caper_uri W) (_out_dir co)
                (_soft_link co) fuel node (_task_graph co) (_out_def_json co))
    as Cm.
  destruct (Organize.organize_output (py W) (caper_uri W) (_out_dir co)
              (_soft_link co) (_out_def_json co) (_task_graph co) fuel)
    as [t3 [[]|e|]]; try discriminate.
  intros [= <-]. cbn [fst snd] in Cm. destruct (Cm eq_refl) as [-> _].
  split; [reflexivity|]. split; [reflexivity|].
  eexists. cbn [fst]. rewrite map_app. cbn [map]. rewrite !app_assoc.
  reflexivity.
Qed.

End MainFacts.

Lemma metadata_list_gives_its_first_witness :
  Cli.load_metadata Cli.example_world "metadata.json" = Cli.Many [tt; tt] /\
  Cli.init Cli.example_world (Cli.MetadataFile unit "metadata.json")
    (Cli.OutDefFile "out_def.json") "/cwd/out" true
  = ([Cli.Print Cli.multiple_metadata],
     Cli.Done (Cli.Croo tt "/cwd/out" Organize.example_def Organize.example_nodes
                        true)).
Proof.
  split; [reflexivity|].
  apply (proj2 (metadata_list_gives_its_first unit nat Cli.example_world
                  "metadata.json" (Cli.OutDefFile "out_def.json") "/cwd/out" true)
               tt [tt]).
  reflexivity.
Defined.

Lemma init_keeps_what_it_is_given_witness :
  Cli.init Cli.example_world (Cli.MetadataDict tt)
    (Cli.OutDefDict Organize.pathless_def) "/cwd/out" false
  = ([], Cli.Done (Cli.Croo tt "/cwd/out" Organize.pathless_def
                            Organize.example_nodes false)) /\
  Cli._out_def_json
    (Cli.Croo tt "/cwd/out" Organize.pathless_def Organize.example_nodes false)
  = Organize.pathless_def.
Proof.
  split; [reflexivity|].
  apply (init_keeps_what_it_is_given unit nat Cli.example_world
           (Cli.MetadataDict tt) (Cli.OutDefDict Organize.pathless_def)
           "/cwd/out" false []
           (Cli.Croo tt "/cwd/out" Organize.pathless_def Organize.example_nodes
                     false)
           eq_refl).
Defined.

Lemma init_raises_its_own_errors_iff_witness :
  Cli.init Cli.example_world (Cli.MetadataDict tt) Cli.OutDefNone "/cwd/out" true
  = ([], Cli.Failed (Cli.ValueError Cli.out_def_undefined)) /\
  Cli.init Cli.example_world (Cli.MetadataDict tt) Cli.OutDefNone "/cwd/out" true
  <> ([], Cli.Failed (Cli.Exception Cli.metadata_empty)).
Proof.
  pose proof (init_raises_its_own_errors_iff unit nat Cli.example_world
                (Cli.MetadataDict tt) Cli.OutDefNone "/cwd/out" true [])
    as [HE HV].
  split.
  - apply (proj2 HV). split; [reflexivity|]. exists tt. now split.
  - intros H. apply (proj1 HE) in H as (_ & uri & K & _). discriminate K.
Defined.

Lemma main_copies_into_the_settled_out_dir_witness :
  In (Cli.Organized (Organize.Copy "/work/xyz.bam" "/cwd/out/align/rep0/xyz.bam"
                                   true))
     (fst (Cli.main Cli.example_world 3 Cli.example_args)) /\
  true = String.eqb "link" "link" /\
  exists calls co ov t p ip,
    Cli.init Cli.example_world (Cli.MetadataFile unit "metadata.json")
      (Cli.OutDefFile "out_def.json") "/cwd/out" (String.eqb "link" "link")
    = (calls, Cli.Done co) /\
    In (ov, t, "/work/xyz.bam")
       (Organize.matches (Cli._out_def_json co) (Cli._task_graph co)) /\
    Organize.path ov = Some p /\
    Interp.interpret_inline_exp Interp.bare_env 3 p "/work/xyz.bam"
      (Organize.shard_idx t) = Ok ip /\
    "/cwd/out/align/rep0/xyz.bam" = Path.join "/cwd/out" ip /\
    (Str.startswith ip "/" = false ->
     String.prefix "/cwd/out" "/cwd/out/align/rep0/xyz.bam" = true) /\
    (Str.startswith ip "/" = true -> "/cwd/out/align/rep0/xyz.bam" = ip).
Proof.
  split; [do 4 right; left; reflexivity|].
  apply (main_copies_into_the_settled_out_dir unit nat Cli.example_world 3
           Cli.example_args "/work/xyz.bam" "/cwd/out/align/rep0/xyz.bam" true).
  do 4 right. left. reflexivity.
Defined.

Lemma main_returns_zero_after_saving_witness :
  snd (Cli.main Cli.example_world 3 Cli.example_args) = Cli.Done 0%Z /\
  exists before,
    fst (Cli.main Cli.example_world 3 Cli.example_args)
    = (before ++ [Cli.Organized Organize.SaveToFile])%list.
Proof.
  split; [reflexivity|].
  apply (main_returns_zero_after_saving unit nat Cli.example_world 3
           Cli.example_args 0%Z).
  reflexivity.
Defined.

Lemma file_is_organized_iff_entry_matches_witness :
  snd (Organize.organize_output Interp.bare_env Organize.local_caper "/out" true
         Organize.example_def Organize.twice_nodes 3) = Ok tt /\
  In "/work/xyz.bam"
     (Organize.copied
        (fst (Organize.organize_output Interp.bare_env Organize.local_caper
                "/out" true Organize.example_def Organize.twice_nodes 3))) /\
  In "/out/align/rep0/xyz.bam"
     (Organize.located
        (fst (Organize.organize_output Interp.bare_env Organize.local_caper
                "/out" true Organize.example_def Organize.twice_nodes 3))).
Proof.
  split; [reflexivity|].
  pose proof (file_is_organized_iff_entry_matches Interp.bare_env
                Organize.local_caper "/out" true 3 nat Organize.twice_nodes
                Organize.example_def eq_refl) as [HC HL].
  split.
  - apply (proj2 (HC "/work/xyz.bam")).
    exists [("bam", Organize.OutVar (Some "align/rep${i}/${basename}")
                                    (Some "BAM rep${i}") None)], "bam",
      (Organize.OutVar (Some "align/rep${i}/${basename}") (Some "BAM rep${i}")
                       None), 0,
      (Organize.Task "align" [ ("bam", "/work/xyz.bam"); ("bai", "/work/xyz.bai");
                               ("bam", "/work/xyz.bam") ]
                     [0%Z; (-1)%Z; (-1)%Z]).
    repeat split; left; reflexivity.
  - apply (proj2 (HL "/out/align/rep0/xyz.bam")).
    exists [("bam", Organize.OutVar (Some "align/rep${i}/${basename}")
                                    (Some "BAM rep${i}") None)], "bam",
      (Organize.OutVar (Some "align/rep${i}/${basename}") (Some "BAM rep${i}")
                       None), 0,
      (Organize.Task "align" [ ("bam", "/work/xyz.bam"); ("bai", "/work/xyz.bai");
                               ("bam", "/work/xyz.bam") ]
                     [0%Z; (-1)%Z; (-1)%Z]), "/work/xyz.bam".
    split; [left; reflexivity|]. split; [left; reflexivity|].
    split; [left; reflexivity|]. split; [left; reflexivity|]. reflexivity.
Defined.

Lemma mapping_file_is_refused_iff_witness :
  In "b" (Tsv.split Str.newline
            (Tsv.strip Str.newline ("a" ++ String Tsv.tab ("1" ++ String Str.newline "b")))) /\
  Tsv.read ("a" ++ String Tsv.tab ("1" ++ String Str.newline "b")) = None.
Proof.
  split; [right; left; reflexivity|].
  apply (proj2 (proj1 (mapping_file_is_refused_iff
                         ("a" ++ String Tsv.tab ("1" ++ String Str.newline "b"))))).
  exists "b". split; [right; left; reflexivity | discriminate].
Defined.
